(** * sqlite_example.py: loading and querying the inventory table

  The script keeps a list of products in the global [plist], writes it
  to the table [products] of the SQLite file [inventory.db] ([load_db]),
  reads it back with two SELECT statements ([run_query]) and prints what
  it finds ([main] runs the two in that order).

  The development has three layers:
  - [Engine]: the part of SQLite the script drives through the [sqlite3]
    module: one database per file, tables with TEXT and INTEGER columns,
    the five statements the script issues, the LIKE operator, the
    column-level PRIMARY KEY constraint;
  - [Py]: the Python side: values, exceptions, standard output, the
    module global [plist], connections with their implicit transaction;
  - the script itself, function by function, and its properties.

  Envelope of the engine model.  Cells hold NULL, 64-bit integers or
  text (no REAL, no BLOB); text is a sequence of bytes, UTF-8 encoded
  and well formed; identifiers are compared up to ASCII case, and the
  tables of a database are keyed by their folded name.  Text bound to an
  INTEGER column is converted when it spells a signed decimal integer
  and is kept as text otherwise.

  The Python side follows CPython 3.6 and later with the module's
  default transaction handling: INSERT opens a transaction that
  [commit] ends, DROP and CREATE outside a transaction take effect at
  once.  One process uses the file at a time, as the script does.
  Exception messages are worded as CPython 3.11 and SQLite word them. *)

From Stdlib Require Import ZArith Ascii String List Bool Lia.
From stdpp Require Import base option list gmap strings pretty.

Open Scope Z_scope.

(** ** The storage engine *)

Module Engine.

(** Storage classes of a cell. *)
Inductive sqlval : Type :=
| SNull
| SInt (z : Z)
| SText (s : string).

#[global] Instance sqlval_eq_dec : EqDecision sqlval.
Proof. solve_decision. Defined.

(** Column affinities of the two declared types the script uses. *)
Inductive affinity : Type := AffText | AffInteger.

#[global] Instance affinity_eq_dec : EqDecision affinity.
Proof. solve_decision. Defined.

Record column : Type := Column {
  col_name : string;
  col_aff : affinity;
  col_pk : bool
}.

#[global] Instance column_eq_dec : EqDecision column.
Proof. solve_decision. Defined.

Abbreviation row := (list sqlval).

(** A table: its columns and its rows in rowid order. *)
Record table : Type := Table {
  tbl_cols : list column;
  tbl_rows : list row
}.

#[global] Instance table_eq_dec : EqDecision table.
Proof. solve_decision. Defined.

Abbreviation database := (gmap string table).

(** What the engine reports; the [sqlite3] module turns each into a
    Python exception. *)
Inductive sqlerr : Type :=
| NoSuchTable (name : string)
| NoSuchColumn (name : string)
| NoColumnNamed (tbl col : string)
| UniqueFailed (tbl col : string).

(** *** Identifiers *)

Definition ascii_lower (c : ascii) : ascii :=
  let n := N_of_ascii c in
  if ((65 <=? n) && (n <=? 90))%N then ascii_of_N (n + 32) else c.

Fixpoint fold_case (s : string) : string :=
  match s with
  | EmptyString => EmptyString
  | String c s' => String (ascii_lower c) (fold_case s')
  end.

Definition same_ident (a b : string) : bool :=
  String.eqb (fold_case a) (fold_case b).

Fixpoint col_index_from (i : nat) (cols : list column) (name : string)
  : option nat :=
  match cols with
  | [] => None
  | c :: cs =>
      if same_ident (col_name c) name then Some i
      else col_index_from (S i) cs name
  end.

Definition col_index := col_index_from 0.

(** *** Integers and text *)

Definition int64_min : Z := - 2 ^ 63.
Definition int64_max : Z := 2 ^ 63 - 1.

Definition in_int64 (z : Z) : bool :=
  (int64_min <=? z) && (z <=? int64_max).

Definition digit_of (c : ascii) : option Z :=
  let n := N_of_ascii c in
  if ((48 <=? n) && (n <=? 57))%N then Some (Z.of_N (n - 48)) else None.

Fixpoint digits_from (acc : Z) (s : string) : option Z :=
  match s with
  | EmptyString => Some acc
  | String c s' =>
      match digit_of c with
      | Some d => digits_from (10 * acc + d) s'
      | None => None
      end
  end.

Definition unsigned_of_text (s : string) : option Z :=
  match s with
  | EmptyString => None
  | _ => digits_from 0 s
  end.

(** A signed decimal integer that fits 64 bits. *)
Definition int_of_text (s : string) : option Z :=
  let r :=
    match s with
    | String "-" s' => Z.opp <$> unsigned_of_text s'
    | String "+" s' => unsigned_of_text s'
    | _ => unsigned_of_text s
    end in
  match r with
  | Some z => if in_int64 z then Some z else None
  | None => None
  end.

Definition apply_affinity (a : affinity) (v : sqlval) : sqlval :=
  match a, v with
  | AffText, SInt z => SText (pretty z)
  | AffInteger, SText s =>
      match int_of_text s with
      | Some z => SInt z
      | None => SText s
      end
  | _, _ => v
  end.

(** *** The LIKE operator

    [%] stands for any run of characters, [_] for one character, any
    other byte for itself up to ASCII case.  A character is one UTF-8
    sequence: a run after [%] ends where a character starts. *)

Definition is_cont (c : ascii) : bool :=
  let n := N_of_ascii c in ((128 <=? n) && (n <? 192))%N.

Fixpoint skip_cont (s : string) : string :=
  match s with
  | EmptyString => EmptyString
  | String c s' => if is_cont c then skip_cont s' else s
  end.

Definition at_char_start (s : string) : bool :=
  match s with
  | EmptyString => true
  | String c _ => negb (is_cont c)
  end.

(** Some suffix of [s] that starts a character satisfies [k]. *)
Fixpoint any_suffix (k : string -> bool) (s : string) : bool :=
  (at_char_start s && k s)
  || match s with
     | EmptyString => false
     | String _ s' => any_suffix k s'
     end.

(** What is left of [s] after its first character. *)
Definition after_char (s : string) : option string :=
  match s with
  | EmptyString => None
  | String c s' =>
      Some (if (192 <=? N_of_ascii c)%N then skip_cont s' else s')
  end.

Fixpoint like (pat : string) : string -> bool :=
  match pat with
  | EmptyString =>
      fun s => match s with EmptyString => true | _ => false end
  | String "%" pat' => any_suffix (like pat')
  | String "_" pat' =>
      fun s => match after_char s with
               | None => false
               | Some s' => like pat' s'
               end
  | String c pat' =>
      fun s => match s with
               | EmptyString => false
               | String d s' =>
                   Ascii.eqb (ascii_lower c) (ascii_lower d) && like pat' s'
               end
  end.

Definition text_of (v : sqlval) : option string :=
  match v with
  | SNull => None
  | SInt z => Some (pretty z)
  | SText s => Some s
  end.

(** [v LIKE p]: NULL on either side selects nothing. *)
Definition sql_like (v p : sqlval) : bool :=
  match text_of v, text_of p with
  | Some s, Some pat => like pat s
  | _, _ => false
  end.

(** [v = p] for a cell [v] of a column of affinity [a] and a bound
    parameter [p]: the parameter takes the column's affinity, NULL equals
    nothing, an integer never equals a text. *)
Definition sql_eq (a : affinity) (v p : sqlval) : bool :=
  match v, apply_affinity a p with
  | SInt x, SInt y => x =? y
  | SText s, SText t => String.eqb s t
  | _, _ => false
  end.

(** *** Statements *)

Inductive stmt : Type :=
| DropTable (name : string)
| CreateTableIfNotExists (name : string) (cols : list column)
| InsertInto (name : string) (cols : list string)
| SelectAllWhereLike (name col : string)
| SelectAllWhereEq (name col : string).

(** Number of [?] placeholders. *)
Definition placeholders (st : stmt) : nat :=
  match st with
  | DropTable _ | CreateTableIfNotExists _ _ => 0%nat
  | InsertInto _ cols => length cols
  | SelectAllWhereLike _ _ | SelectAllWhereEq _ _ => 1%nat
  end.

Definition is_dml (st : stmt) : bool :=
  match st with InsertInto _ _ => true | _ => false end.

Definition find_table (db : database) (name : string) : sqlerr + table :=
  match db !! fold_case name with
  | Some t => inr t
  | None => inl (NoSuchTable name)
  end.

(** Compiling a statement checks the names it mentions. *)
Definition prepare (db : database) (st : stmt) : option sqlerr :=
  match st with
  | DropTable name =>
      match find_table db name with inl e => Some e | inr _ => None end
  | CreateTableIfNotExists _ _ => None
  | InsertInto name cols =>
      match find_table db name with
      | inl e => Some e
      | inr t =>
          match List.find
                  (fun c => negb (bool_decide
                                    (is_Some (col_index (tbl_cols t) c))))
                  cols with
          | Some c => Some (NoColumnNamed name c)
          | None => None
          end
      end
  | SelectAllWhereLike name col | SelectAllWhereEq name col =>
      match find_table db name with
      | inl e => Some e
      | inr t =>
          match col_index (tbl_cols t) col with
          | Some _ => None
          | None => Some (NoSuchColumn col)
          end
      end
  end.

(** The value an INSERT gives column [c]: the parameter at the position
    of [c] in the statement's column list, NULL when [c] is not listed. *)
Fixpoint param_for (c : column) (cols : list string) (params : row)
  : sqlval :=
  match cols, params with
  | n :: cols', p :: params' =>
      if same_ident n (col_name c) then p else param_for c cols' params'
  | _, _ => SNull
  end.

Definition new_row (t : table) (cols : list string) (params : row) : row :=
  List.map (fun c => apply_affinity (col_aff c) (param_for c cols params))
           (tbl_cols t).

Definition cell (r : row) (i : nat) : sqlval := List.nth i r SNull.

(** A PRIMARY KEY column refuses a value it already holds; NULL is
    never refused. *)
Definition clashes (rows : list row) (i : nat) (v : sqlval) : bool :=
  match v with
  | SNull => false
  | _ => existsb (fun r => bool_decide (cell r i = v)) rows
  end.

Fixpoint pk_violation_from (i : nat) (cols : list column)
         (rows : list row) (r : row) : option string :=
  match cols with
  | [] => None
  | c :: cs =>
      if col_pk c && clashes rows i (cell r i) then Some (col_name c)
      else pk_violation_from (S i) cs rows r
  end.

Definition pk_violation (t : table) (r : row) : option string :=
  pk_violation_from 0 (tbl_cols t) (tbl_rows t) r.

Definition select_rows (t : table) (keep : row -> bool) : list row :=
  List.filter keep (tbl_rows t).

(** One execution of a prepared statement with its parameters bound. *)
Definition step (db : database) (st : stmt) (params : row)
  : sqlerr + (database * list row) :=
  match st with
  | DropTable name => inr (delete (fold_case name) db, [])
  | CreateTableIfNotExists name cols =>
      match db !! fold_case name with
      | Some _ => inr (db, [])
      | None => inr (<[fold_case name := Table cols []]> db, [])
      end
  | InsertInto name cols =>
      match find_table db name with
      | inl e => inl e
      | inr t =>
          let r := new_row t cols params in
          match pk_violation t r with
          | Some c => inl (UniqueFailed name c)
          | None =>
              inr (<[fold_case name :=
                       Table (tbl_cols t) (tbl_rows t ++ [r])]> db, [])
          end
      end
  | SelectAllWhereLike name col =>
      match find_table db name with
      | inl e => inl e
      | inr t =>
          match col_index (tbl_cols t) col with
          | None => inl (NoSuchColumn col)
          | Some i =>
              inr (db, select_rows t (fun r =>
                         sql_like (cell r i) (cell params 0)))
          end
      end
  | SelectAllWhereEq name col =>
      match find_table db name with
      | inl e => inl e
      | inr t =>
          match col_index (tbl_cols t) col with
          | None => inl (NoSuchColumn col)
          | Some i =>
              let a := default AffText
                         (col_aff <$> (tbl_cols t !! i)) in
              inr (db, select_rows t (fun r =>
                         sql_eq a (cell r i) (cell params 0)))
          end
      end
  end.

End Engine.

(** ** The Python side *)

Module Py.
Import Engine.

Inductive pyval : Type :=
| PyNone
| PyInt (z : Z)
| PyStr (s : string).

#[global] Instance pyval_eq_dec : EqDecision pyval.
Proof. solve_decision. Defined.

Inductive pyexc : Type :=
| OperationalError (msg : string)
| IntegrityError (msg : string)
| ProgrammingError (msg : string)
| OverflowError (msg : string)
| TypeError (msg : string)
| IndexError (msg : string).

(** What a process can consult besides its files; the script reads none
    of it. *)
Record process_env : Type := ProcessEnv {
  argv : list string;
  environ : list (string * string);
  stdin : list string
}.

(** The state a run acts on: the binding of the module global [plist],
    the databases of the files on disk, the lines written to standard
    output, the process environment. *)
Record world : Type := World {
  g_plist : list (list pyval);
  w_fs : gmap string database;
  w_out : list string;
  w_env : process_env
}.

(** A file that is missing or empty holds the empty database. *)
Definition read_db (fs : gmap string database) (path : string) : database :=
  default ∅ (fs !! path).

Definition set_fs (w : world) (fs : gmap string database) : world :=
  World (g_plist w) fs (w_out w) (w_env w).

Definition add_out (w : world) (line : string) : world :=
  World (g_plist w) (w_fs w) (w_out w ++ [line]) (w_env w).

Inductive outcome (A : Type) : Type :=
| Ok (a : A)
| Raise (e : pyexc).
Arguments Ok {A} a.
Arguments Raise {A} e.

(** A computation returns normally or raises; the effects it had up to
    the exception stay. *)
Definition M (A : Type) : Type := world -> outcome A * world.

Definition ret {A} (a : A) : M A := fun w => (Ok a, w).

Definition raise {A} (e : pyexc) : M A := fun w => (Raise e, w).

Definition bind {A B} (m : M A) (k : A -> M B) : M B :=
  fun w =>
    match m w with
    | (Ok a, w') => k a w'
    | (Raise e, w') => (Raise e, w')
    end.

Declare Scope py_scope.
Delimit Scope py_scope with py.
Notation "x <- m ;; k" := (bind m (fun x => k))
  (at level 100, m at next level, right associativity) : py_scope.
Notation "m ;; k" := (bind m (fun _ => k))
  (at level 100, right associativity) : py_scope.
Open Scope py_scope.

Fixpoint for_each {A} (xs : list A) (body : A -> M unit) : M unit :=
  match xs with
  | [] => ret tt
  | x :: xs' => body x ;; for_each xs' body
  end.

(** *** Built-ins *)

Definition print (line : string) : M unit :=
  fun w => (Ok tt, add_out w line).

(** Reading the global [plist]. *)
Definition get_plist : M (list (list pyval)) :=
  fun w => (Ok (g_plist w), w).

Definition len {A} (l : list A) : Z := Z.of_nat (length l).

(** [r[i]] on a tuple. *)
Definition getitem (r : list pyval) (i : nat) : M pyval :=
  match List.nth_error r i with
  | Some v => ret v
  | None => raise (IndexError "tuple index out of range")
  end.

(** The conversion [%s]. *)
Definition fmt_s (v : pyval) : string :=
  match v with
  | PyNone => "None"
  | PyInt z => pretty z
  | PyStr s => s
  end.

(** The conversion [%d]: numbers only. *)
Definition fmt_d (v : pyval) : M string :=
  match v with
  | PyInt z => ret (pretty z)
  | PyNone => raise (TypeError "%d format: a real number is required, not NoneType")
  | PyStr _ => raise (TypeError "%d format: a real number is required, not str")
  end.

(** *** The sqlite3 module *)

(** A connection: the file it is open on, the database as this
    connection sees it (with its uncommitted changes), and whether a
    transaction is open.  Nothing else writes the file while the
    connection is open. *)
Record connection : Type := Connection {
  con_path : string;
  con_db : database;
  con_in_tx : bool
}.

Definition write_file (path : string) (db : database) : M unit :=
  fun w => (Ok tt, set_fs w (<[path := db]> (w_fs w))).

(** [sqlite3.connect(path)]: the file is created when it is missing. *)
Definition connect (path : string) : M connection :=
  fun w =>
    let db := read_db (w_fs w) path in
    (Ok (Connection path db false), set_fs w (<[path := db]> (w_fs w))).

Definition exc_of (e : sqlerr) : pyexc :=
  match e with
  | NoSuchTable n => OperationalError ("no such table: " +:+ n)
  | NoSuchColumn c => OperationalError ("no such column: " +:+ c)
  | NoColumnNamed t c =>
      OperationalError ("table " +:+ t +:+ " has no column named " +:+ c)
  | UniqueFailed t c =>
      IntegrityError ("UNIQUE constraint failed: " +:+ t +:+ "." +:+ c)
  end.

(** Python value to bound parameter. *)
Definition to_sql (v : pyval) : M sqlval :=
  match v with
  | PyNone => ret SNull
  | PyInt z =>
      if in_int64 z then ret (SInt z)
      else raise (OverflowError "Python int too large to convert to SQLite INTEGER")
  | PyStr s => ret (SText s)
  end.

(** Fetched cell to Python value. *)
Definition of_sql (v : sqlval) : pyval :=
  match v with
  | SNull => PyNone
  | SInt z => PyInt z
  | SText s => PyStr s
  end.

Fixpoint bind_values (params : list pyval) : M row :=
  match params with
  | [] => ret []
  | p :: ps =>
      v <- to_sql p ;;
      vs <- bind_values ps ;;
      ret (v :: vs)
  end.

Definition bind_params (st : stmt) (params : list pyval) : M row :=
  if bool_decide (length params = placeholders st) then bind_values params
  else raise (ProgrammingError
                ("Incorrect number of bindings supplied. "
                 +:+ "The current statement uses "
                 +:+ pretty (Z.of_nat (placeholders st))
                 +:+ ", and there are " +:+ pretty (len params)
                 +:+ " supplied.")).

Definition is_ddl (st : stmt) : bool :=
  match st with
  | DropTable _ | CreateTableIfNotExists _ _ => true
  | _ => false
  end.

(** Compiling the statement; a name it cannot resolve is an error. *)
Definition compile (con : connection) (st : stmt) : M unit :=
  match prepare (con_db con) st with
  | Some e => raise (exc_of e)
  | None => ret tt
  end.

(** The implicit BEGIN the module issues before a data-changing
    statement. *)
Definition begin_if_dml (con : connection) (st : stmt) : connection :=
  if is_dml st then Connection (con_path con) (con_db con) true else con.

(** Binding one parameter tuple and running the statement.  Outside a
    transaction a schema change reaches the file at once. *)
Definition run_stmt (con : connection) (st : stmt) (params : list pyval)
  : M (connection * list (list pyval)) :=
  bound <- bind_params st params ;;
  match step (con_db con) st bound with
  | inl e => raise (exc_of e)
  | inr (db', rows) =>
      (if is_ddl st && negb (con_in_tx con)
       then write_file (con_path con) db' else ret tt) ;;
      ret (Connection (con_path con) db' (con_in_tx con),
           List.map (List.map of_sql) rows)
  end.

(** [cur.execute(sql, params)]; the rows are those the cursor yields. *)
Definition execute (con : connection) (st : stmt) (params : list pyval)
  : M (connection * list (list pyval)) :=
  compile con st ;;
  run_stmt (begin_if_dml con st) st params.

Fixpoint run_many (con : connection) (st : stmt)
         (seq_of_params : list (list pyval)) : M connection :=
  match seq_of_params with
  | [] => ret con
  | params :: rest =>
      r <- run_stmt con st params ;;
      run_many (fst r) st rest
  end.

(** [cur.executemany(sql, seq_of_params)]: the statement is compiled
    once and run for each parameter tuple in turn. *)
Definition executemany (con : connection) (st : stmt)
           (seq_of_params : list (list pyval)) : M connection :=
  compile con st ;;
  if is_dml st then run_many (begin_if_dml con st) st seq_of_params
  else raise (ProgrammingError "executemany() can only execute DML statements.").

(** [con.commit()] *)
Definition commit (con : connection) : M connection :=
  if con_in_tx con then
    write_file (con_path con) (con_db con) ;;
    ret (Connection (con_path con) (con_db con) false)
  else ret con.

(** [con.close()]: what was not committed is lost. *)
Definition close (con : connection) : M unit := ret tt.

End Py.

(** ** The script *)

Import Engine Py.

Definition DBFILE : string := "inventory.db".
Definition DBTABLE : string := "products".

(** The list of products: product ID, description, quantity. *)
Definition plist : list (list pyval) :=
  [ [ PyStr "85123A"; PyStr "Blue paisley tissue box"; PyInt 8 ];
    [ PyStr "82578";  PyStr "Kitchen metal sign";      PyInt 2 ];
    [ PyStr "22111";  PyStr "Small popcorn holder";    PyInt 3 ];
    [ PyStr "23084";  PyStr "Rabbit night light";      PyInt 8 ];
    [ PyStr "22776";  PyStr "Swallows greeting card";  PyInt 4 ] ].

(** The columns the CREATE TABLE statement declares. *)
Definition products_columns : list column :=
  [ Column "productID" AffText true;
    Column "description" AffText false;
    Column "quantity" AffInteger false ].

(** [DROP TABLE %s] *)
Definition drop_sql (tbl : string) : stmt := DropTable tbl.

(** [CREATE TABLE IF NOT EXISTS %s (productID TEXT PRIMARY KEY,
    description TEXT, quantity INTEGER);] *)
Definition create_sql (tbl : string) : stmt :=
  CreateTableIfNotExists tbl products_columns.

(** [INSERT INTO %s (productID, description, quantity) VALUES (?, ?, ?)] *)
Definition insert_sql (tbl : string) : stmt :=
  InsertInto tbl [ "productID"; "description"; "quantity" ].

(** [SELECT * FROM %s WHERE description LIKE ?] *)
Definition like_sql (tbl : string) : stmt :=
  SelectAllWhereLike tbl "description".

(** [SELECT * FROM %s WHERE productID = ?] *)
Definition exact_sql (tbl : string) : stmt :=
  SelectAllWhereEq tbl "productID".

Definition load_db : M unit :=
  pl <- get_plist ;;
  print ("Loading the database with " +:+ pretty (len pl) +:+ " items.") ;;
  con <- connect DBFILE ;;
  r <- execute con (drop_sql DBTABLE) [] ;;
  r <- execute (fst r) (create_sql DBTABLE) [] ;;
  pl <- get_plist ;;
  con <- executemany (fst r) (insert_sql DBTABLE) pl ;;
  con <- commit con ;;
  close con.

(** The body of the two [for r in recs] loops. *)
Definition print_rec (r : list pyval) : M unit :=
  x <- getitem r 0 ;;
  print ("Product ID: " +:+ fmt_s x) ;;
  x <- getitem r 1 ;;
  print ("Description: " +:+ fmt_s x) ;;
  x <- getitem r 2 ;;
  q <- fmt_d x ;;
  print ("Quantity: " +:+ q).

(** Query 1 for a search string: the LIKE query with the string between
    two [%]. *)
Definition query1 (con : connection) (toSearch : string)
  : M (connection * list (list pyval)) :=
  let qkey := [ PyStr ("%" +:+ toSearch +:+ "%") ] in
  execute con (like_sql DBTABLE) qkey.

(** Query 2 for a product ID: the exact match. *)
Definition query2 (con : connection) (key : string)
  : M (connection * list (list pyval)) :=
  let qkey := [ PyStr key ] in
  execute con (exact_sql DBTABLE) qkey.

Definition run_query : M unit :=
  con <- connect DBFILE ;;
  r <- query1 con "sign" ;;
  print "Records that match query 1: " ;;
  for_each (snd r) print_rec ;;
  r <- query2 (fst r) "22776" ;;
  print "Records that match query 2: " ;;
  for_each (snd r) print_rec ;;
  close (fst r).

Definition main : M unit :=
  print "Loading the database..." ;;
  load_db ;;
  print "Done." ;;
  print "Querying:" ;;
  run_query.

(** The state in which [main] starts: the globals as the module body
    binds them, nothing printed yet. *)
Definition initial_world (env : process_env) (fs : gmap string database)
  : world :=
  World plist fs [] env.

(** ** Observing the store *)

(** The database in the file [DBFILE]. *)
Definition db_of (w : world) : database := read_db (w_fs w) DBFILE.

(** The table [DBTABLE] of that database, when there is one. *)
Definition products_of (w : world) : option table :=
  db_of w !! fold_case DBTABLE.

(** The rows of a table as a reader fetches them. *)
Definition records_of (t : table) : list (list pyval) :=
  List.map (List.map of_sql) (tbl_rows t).

(** The first field of each record. *)
Definition product_ids (pl : list (list pyval)) : list pyval :=
  List.map (fun r => List.nth 0 r PyNone) pl.

(** A reader that opens the file, runs query 2 for [key], and hands back
    the rows. *)
Definition lookup_product (key : string) : M (list (list pyval)) :=
  con <- connect DBFILE ;;
  r <- query2 con key ;;
  close (fst r) ;;
  ret (snd r).

(** A reader that runs query 1 for [toSearch]. *)
Definition search_description (toSearch : string) : M (list (list pyval)) :=
  con <- connect DBFILE ;;
  r <- query1 con toSearch ;;
  close (fst r) ;;
  ret (snd r).

(** [needle] occurs in [hay], byte for byte. *)
Fixpoint contains (needle hay : string) : bool :=
  String.prefix needle hay
  || match hay with
     | EmptyString => false
     | String _ hay' => contains needle hay'
     end.

(** A byte of a search string that LIKE takes literally: ASCII, and
    neither of the two wildcards. *)
Definition plain (c : ascii) : bool :=
  negb (Ascii.eqb c "%") && negb (Ascii.eqb c "_")
  && (N_of_ascii c <? 128)%N.

Fixpoint plain_text (s : string) : bool :=
  match s with
  | EmptyString => true
  | String c s' => plain c && plain_text s'
  end.

Definition description_contains (needle : string) (r : list pyval) : bool :=
  match List.nth 1 r PyNone with
  | PyStr d => contains needle d
  | _ => false
  end.

(** A record as the script's rows are: two strings and an integer that
    fits 64 bits. *)
Definition well_typed (r : list pyval) : Prop :=
  exists id d q, r = [PyStr id; PyStr d; PyInt q] /\ in_int64 q = true.

(** The cells [INSERT] stores for a well-typed record. *)
Definition stored (r : list pyval) : row :=
  List.map (fun v => match v with
                     | PyNone => SNull
                     | PyInt z => SInt z
                     | PyStr s => SText s
                     end) r.

(** The values column [i] holds, NULLs apart. *)
Definition keys_at (i : nat) (rows : list row) : list sqlval :=
  List.filter (fun v => negb (bool_decide (v = SNull)))
              (List.map (fun r => cell r i) rows).

(** Every PRIMARY KEY column of the table holds each value once. *)
Definition pk_ok (t : table) : Prop :=
  forall i c, tbl_cols t !! i = Some c -> col_pk c = true ->
              NoDup (keys_at i (tbl_rows t)).

Definition db_ok (db : database) : Prop :=
  forall n t, db !! n = Some t -> pk_ok t.

(** A world with more lines on standard output. *)
Definition add_lines (w : world) (lines : list string) : world :=
  World (g_plist w) (w_fs w) (w_out w ++ lines) (w_env w).

(** The line [load_db] prints first. *)
Definition loading_line (pl : list (list pyval)) : string :=
  "Loading the database with " +:+ pretty (len pl) +:+ " items.".

(** The table [load_db] leaves behind. *)
Definition loaded_table : table :=
  Table products_columns (List.map stored plist).

(** The lines [run_query] prints after a load. *)
Definition query_lines : list string :=
  [ "Records that match query 1: ";
    "Product ID: 82578"; "Description: Kitchen metal sign"; "Quantity: 2";
    "Records that match query 2: ";
    "Product ID: 22776"; "Description: Swallows greeting card";
    "Quantity: 4" ].

(** The lines a whole run prints when the table was there. *)
Definition main_lines : list string :=
  [ "Loading the database..."; "Loading the database with 5 items.";
    "Done."; "Querying:" ] ++ query_lines.

(** The error of a DROP TABLE that finds no table. *)
Definition no_such_table : pyexc :=
  OperationalError "no such table: products".

(** The error of an INSERT that repeats a product ID. *)
Definition unique_failed : pyexc :=
  IntegrityError "UNIQUE constraint failed: products.productID".

(** Two starting points for examples: a file whose table [products] is
    left over from something else, and no file at all. *)
Definition sample_env : process_env :=
  ProcessEnv [ "sqlite_example.py" ] [ ("HOME", "/home/user") ] [].

Definition stale_db : database :=
  {[ "products" := Table [ Column "sku" AffText false ] [ [ SText "old" ] ] ]}.

Definition stale_world : world :=
  initial_world sample_env {[ DBFILE := stale_db ]}.

Definition fresh_world : world := initial_world sample_env ∅.

Definition loaded_world : world := snd (load_db stale_world).

(** Another command line and another directory content around the same
    [inventory.db]. *)
Definition other_env : process_env :=
  ProcessEnv [ "sqlite_example.py"; "--verbose" ] [] [ "yes" ].

Definition crowded_fs : gmap string database :=
  {[ DBFILE := stale_db; "notes.db" := stale_db ]}.

(** A connection inside a transaction on the loaded table. *)
Definition loaded_con : connection :=
  Connection DBFILE {[ "products" := loaded_table ]} true.

(** [m] leaves the observation [obs] of the world as it was, whether it
    returns or raises. *)
Definition preserves {X A : Type} (obs : world -> X) (m : M A) : Prop :=
  forall w, obs (snd (m w)) = obs w.

(** ** More to observe *)

(** The cell a bound Python value becomes when it fits. *)
Definition cell_of_py (v : pyval) : sqlval :=
  match v with
  | PyNone => SNull
  | PyInt z => SInt z
  | PyStr s => SText s
  end.




(** The world after [n] runs of the script, one after the other. *)
Fixpoint rerun (n : nat) (w : world) : world :=
  match n with
  | O => w
  | S n' => snd (main (rerun n' w))
  end.

(** The table a statement names. *)
Definition stmt_table (st : stmt) : string :=
  match st with
  | DropTable name | CreateTableIfNotExists name _ | InsertInto name _
  | SelectAllWhereLike name _ | SelectAllWhereEq name _ => name
  end.

(** [m] keeps the property [I] of the world on every path, and what it
    returns satisfies [R]. *)
Definition inv_res {A : Type} (I : world -> Prop) (R : A -> Prop) (m : M A)
  : Prop :=
  forall w, I w ->
            I (snd (m w)) /\ forall a, fst (m w) = Ok a -> R a.

(** The world differs from the files [fs0] in the database of [DBFILE]
    at most, and that database satisfies [G]. *)
Definition confined (fs0 : gmap string database) (G : database -> Prop)
           (w : world) : Prop :=
  (forall p, p <> DBFILE -> read_db (w_fs w) p = read_db fs0 p)
  /\ G (db_of w).

(** The connection is open on [DBFILE] and sees a database that
    satisfies [G]. *)
Definition con_confined (G : database -> Prop) (con : connection) : Prop :=
  con_path con = DBFILE /\ G (con_db con).

(** The database agrees with [db0] on every table but [DBTABLE]. *)
Definition same_but_products (db0 db : database) : Prop :=
  forall n, n <> fold_case DBTABLE -> db !! n = db0 !! n.

(** A list that repeats a product ID, in a world whose table exists. *)
Definition repeating_list : list (list pyval) :=
  [ [ PyStr "A1"; PyStr "Tin sign"; PyInt 1 ];
    [ PyStr "B2"; PyStr "Mug"; PyInt 7 ];
    [ PyStr "A1"; PyStr "Tin sign, large"; PyInt 3 ] ].

Definition repeating_world : world :=
  World repeating_list {[ DBFILE := stale_db ]} [] sample_env.

(** A short list of another shop, in a world whose table exists. *)
Definition other_list : list (list pyval) :=
  [ [ PyStr "A1"; PyStr "Tin SIGN"; PyInt 1 ];
    [ PyStr "22776"; PyStr "Mug"; PyInt 7 ] ].

Definition other_world : world :=
  World other_list {[ DBFILE := stale_db ]} [] sample_env.

(** ** Properties *)

(** *** Sequencing *)

Lemma bind_ok {A B} (m : M A) (k : A -> M B) w a w' :
  m w = (Ok a, w') -> bind m k w = k a w'.
Proof. intros H. unfold bind. now rewrite H. Qed.

Lemma bind_raise {A B} (m : M A) (k : A -> M B) w e w' :
  m w = (Raise e, w') -> bind m k w = (Raise e, w').
Proof. intros H. unfold bind. now rewrite H. Qed.

(** Running [m] first, then the rest on what it returned. *)
Lemma bind_ok_eq {A B} (m : M A) (k : A -> M B) w a w' R :
  m w = (Ok a, w') -> k a w' = R -> bind m k w = R.
Proof. intros H <-. now apply bind_ok. Qed.

Lemma bind_raise_eq {A B} (m : M A) (k : A -> M B) w e w' R :
  m w = (Raise e, w') -> (Raise e, w') = R -> bind m k w = R.
Proof. intros H <-. now apply bind_raise. Qed.

Ltac run_with tac := eapply bind_ok_eq; [ tac | cbv beta ].
Ltac run_prim := run_with ltac:(reflexivity).
Ltac stop_with tac := eapply bind_raise_eq; [ tac | ].

Lemma fold_case_DBTABLE : fold_case DBTABLE = "products".
Proof. reflexivity. Qed.

(** *** The statements of the loader, one at a time *)

Lemma execute_drop_ok con name t w :
  con_db con !! fold_case name = Some t ->
  con_in_tx con = false ->
  execute con (drop_sql name) [] w =
    (Ok (Connection (con_path con) (delete (fold_case name) (con_db con))
                    false, []),
     set_fs w (<[con_path con := delete (fold_case name) (con_db con)]>
                 (w_fs w))).
Proof.
  intros Ht Htx.
  unfold execute, compile, drop_sql, prepare, find_table, bind.
  rewrite Ht. cbn. unfold run_stmt, bind. cbn. rewrite Htx. reflexivity.
Qed.

Lemma execute_drop_missing con name w :
  con_db con !! fold_case name = None ->
  execute con (drop_sql name) [] w =
    (Raise (OperationalError ("no such table: " +:+ name)), w).
Proof.
  intros Ht.
  unfold execute, compile, drop_sql, prepare, find_table, bind.
  rewrite Ht. reflexivity.
Qed.

Lemma execute_create_fresh con name w :
  con_db con !! fold_case name = None ->
  con_in_tx con = false ->
  execute con (create_sql name) [] w =
    (Ok (Connection (con_path con)
           (<[fold_case name := Table products_columns []]> (con_db con))
           false, []),
     set_fs w (<[con_path con :=
                   <[fold_case name := Table products_columns []]>
                     (con_db con)]> (w_fs w))).
Proof.
  intros Ht Htx.
  unfold execute, compile, create_sql, prepare, bind. cbn.
  unfold run_stmt, bind. cbn. rewrite Ht, Htx. reflexivity.
Qed.

Lemma clashes_fresh rows i v :
  ~ In v (List.map (fun r => cell r i) rows) -> clashes rows i v = false.
Proof.
  intros Hv. destruct v; [reflexivity | |];
    simpl; apply not_true_is_false; intros He;
    apply existsb_exists in He as [r [Hr Hc]];
    apply bool_decide_eq_true in Hc;
    apply Hv, in_map_iff; eauto.
Qed.

Lemma clashes_taken rows i v :
  v <> SNull -> In v (List.map (fun r => cell r i) rows) ->
  clashes rows i v = true.
Proof.
  intros Hn Hv. apply in_map_iff in Hv as [r [Hc Hr]].
  assert (existsb (fun r => bool_decide (cell r i = v)) rows = true) as He.
  { apply existsb_exists. exists r. split; [assumption |].
    now apply bool_decide_eq_true. }
  destruct v; [congruence | exact He | exact He].
Qed.

Lemma new_row_well_typed rows id d q :
  new_row (Table products_columns rows)
          ["productID"; "description"; "quantity"]
          [SText id; SText d; SInt q]
  = [SText id; SText d; SInt q].
Proof. reflexivity. Qed.

Lemma pk_violation_products rows r :
  pk_violation (Table products_columns rows) r =
    if clashes rows 0 (cell r 0) then Some "productID" else None.
Proof.
  unfold pk_violation, products_columns, pk_violation_from.
  cbn [tbl_cols tbl_rows col_pk col_name andb].
  destruct (clashes rows 0 (cell r 0)); reflexivity.
Qed.

Lemma bind_params_well_typed name id d q w :
  in_int64 q = true ->
  bind_params (insert_sql name) [PyStr id; PyStr d; PyInt q] w =
    (Ok [SText id; SText d; SInt q], w).
Proof.
  intros Hq. unfold bind_params, insert_sql, placeholders.
  rewrite bool_decide_eq_true_2 by reflexivity.
  unfold bind_values, to_sql, bind, ret. rewrite Hq. reflexivity.
Qed.

(** One INSERT of a well-typed record whose product ID is new. *)
Lemma run_insert_fresh con name rows id d q w :
  con_in_tx con = true ->
  con_db con !! fold_case name = Some (Table products_columns rows) ->
  in_int64 q = true ->
  ~ In (SText id) (List.map (fun r => cell r 0) rows) ->
  run_stmt con (insert_sql name) [PyStr id; PyStr d; PyInt q] w =
    (Ok (Connection (con_path con)
           (<[fold_case name :=
                Table products_columns (rows ++ [[SText id; SText d; SInt q]])]>
              (con_db con)) true, []), w).
Proof.
  intros Htx Ht Hq Hfresh.
  unfold run_stmt.
  erewrite bind_ok by (apply bind_params_well_typed; exact Hq).
  unfold insert_sql, step, find_table. rewrite Ht.
  cbn [tbl_cols tbl_rows]. rewrite new_row_well_typed.
  rewrite pk_violation_products. cbn [cell nth].
  rewrite (clashes_fresh rows 0 (SText id) Hfresh).
  rewrite Htx. reflexivity.
Qed.

(** One INSERT of a record whose product ID the table already holds. *)
Lemma run_insert_duplicate con name rows id d q w :
  con_db con !! fold_case name = Some (Table products_columns rows) ->
  in_int64 q = true ->
  In (SText id) (List.map (fun r => cell r 0) rows) ->
  run_stmt con (insert_sql name) [PyStr id; PyStr d; PyInt q] w =
    (Raise (IntegrityError
              ("UNIQUE constraint failed: " +:+ name +:+ ".productID")), w).
Proof.
  intros Ht Hq Hdup.
  unfold run_stmt.
  erewrite bind_ok by (apply bind_params_well_typed; exact Hq).
  unfold insert_sql, step, find_table. rewrite Ht.
  cbn [tbl_cols tbl_rows]. rewrite new_row_well_typed.
  rewrite pk_violation_products. cbn [cell nth].
  rewrite (clashes_taken rows 0 (SText id));
    [reflexivity | discriminate | assumption].
Qed.

Lemma stored_well_typed id d q :
  stored [PyStr id; PyStr d; PyInt q] = [SText id; SText d; SInt q].
Proof. reflexivity. Qed.

(** The bulk insert: every record is appended, in order. *)
Lemma run_many_insert name pl :
  forall con rows w,
    Forall well_typed pl ->
    con_in_tx con = true ->
    con_db con !! fold_case name = Some (Table products_columns rows) ->
    NoDup (List.map (fun r => cell r 0) (rows ++ List.map stored pl)) ->
    run_many con (insert_sql name) pl w =
      (Ok (Connection (con_path con)
             (<[fold_case name :=
                  Table products_columns (rows ++ List.map stored pl)]>
                (con_db con)) true), w).
Proof.
  induction pl as [| r pl IH]; intros con rows w Hwt Htx Ht Hnd.
  - simpl. rewrite app_nil_r. rewrite insert_id by exact Ht.
    destruct con; simpl in *; subst; reflexivity.
  - apply Forall_cons_1 in Hwt as [(id & d & q & -> & Hq) Hwt].
    cbn [List.map] in *. rewrite stored_well_typed in *.
    assert (~ In (SText id) (List.map (fun r => cell r 0) rows)) as Hfresh.
    { rewrite map_app in Hnd. apply NoDup_ListNoDup in Hnd.
      intros Hin. apply NoDup_remove_2 in Hnd. apply Hnd.
      apply in_or_app. now left. }
    cbn [run_many].
    erewrite bind_ok
      by (apply run_insert_fresh; [exact Htx | exact Ht | exact Hq | exact Hfresh]).
    cbn [fst].
    rewrite IH with (rows := rows ++ [[SText id; SText d; SInt q]]).
    + cbn [con_path con_db]. rewrite insert_insert_eq.
      rewrite <- app_assoc. reflexivity.
    + exact Hwt.
    + reflexivity.
    + cbn [con_db]. apply lookup_insert_eq.
    + rewrite <- app_assoc. exact Hnd.
Qed.

Lemma commit_in_tx con w :
  con_in_tx con = true ->
  commit con w =
    (Ok (Connection (con_path con) (con_db con) false),
     set_fs w (<[con_path con := con_db con]> (w_fs w))).
Proof. intros Htx. unfold commit. rewrite Htx. reflexivity. Qed.

(** *** The loader as a whole *)

Lemma executemany_insert con name pl w :
  Forall well_typed pl ->
  con_db con !! fold_case name = Some (Table products_columns []) ->
  NoDup (List.map (fun r => cell r 0) (List.map stored pl)) ->
  executemany con (insert_sql name) pl w =
    (Ok (Connection (con_path con)
           (<[fold_case name := Table products_columns (List.map stored pl)]>
              (con_db con)) true), w).
Proof.
  intros Hwt Ht Hnd. unfold executemany.
  run_with ltac:(unfold compile, insert_sql, prepare, find_table;
                 rewrite Ht; reflexivity).
  cbn [insert_sql is_dml].
  apply (run_many_insert name pl (begin_if_dml con (InsertInto name _)) [] w);
    [exact Hwt | reflexivity | exact Ht | exact Hnd].
Qed.

(** With the table there, the loader runs to its end and leaves the
    records of [plist] in a fresh table. *)
Lemma load_db_present w t0 :
  products_of w = Some t0 ->
  Forall well_typed (g_plist w) ->
  NoDup (List.map (fun r => cell r 0) (List.map stored (g_plist w))) ->
  load_db w =
    (Ok tt,
     set_fs (add_out w (loading_line (g_plist w)))
       (<[DBFILE := <[fold_case DBTABLE :=
                        Table products_columns (List.map stored (g_plist w))]>
                      (db_of w)]> (w_fs w))).
Proof.
  intros Ht Hwt Hnd. unfold load_db.
  run_prim. run_prim. run_prim.
  run_with ltac:(apply execute_drop_ok with (t := t0);
                 [exact Ht | reflexivity]).
  cbn [fst con_path con_db].
  run_with ltac:(apply execute_create_fresh;
                 [apply lookup_delete_eq | reflexivity]).
  cbn [fst con_path con_db].
  run_prim.
  run_with ltac:(apply executemany_insert;
                 [exact Hwt | apply lookup_insert_eq | exact Hnd]).
  run_with ltac:(apply commit_in_tx; reflexivity).
  unfold close, ret, set_fs, add_out, db_of.
  cbn [g_plist w_fs w_out w_env con_path con_db].
  rewrite !insert_insert_eq, insert_delete_eq. reflexivity.
Qed.

(** Without the table, the DROP statement stops the loader. *)
Lemma load_db_missing w :
  products_of w = None ->
  load_db w =
    (Raise no_such_table,
     set_fs (add_out w (loading_line (g_plist w)))
       (<[DBFILE := db_of w]> (w_fs w))).
Proof.
  intros Ht. unfold load_db.
  run_prim. run_prim. run_prim.
  stop_with ltac:(apply execute_drop_missing; exact Ht).
  reflexivity.
Qed.

(** *** The sample list *)

Lemma plist_well_typed : Forall well_typed plist.
Proof.
  unfold plist.
  repeat (constructor; [eexists _, _, _; split; reflexivity |]).
  constructor.
Qed.

Lemma plist_keys_distinct :
  NoDup (List.map (fun r => cell r 0) (List.map stored plist)).
Proof. apply (bool_decide_unpack _). vm_compute. exact I. Qed.

Lemma plist_ids_distinct : NoDup (product_ids plist).
Proof. apply (bool_decide_unpack _). vm_compute. exact I. Qed.

(** *** The two queries *)

Lemma keep_connection con :
  Connection (con_path con) (con_db con) (con_in_tx con) = con.
Proof. now destruct con. Qed.

Lemma col_index_productID : col_index products_columns "productID" = Some 0%nat.
Proof. reflexivity. Qed.

Lemma col_index_description :
  col_index products_columns "description" = Some 1%nat.
Proof. reflexivity. Qed.

Lemma query1_products con toSearch rows w :
  con_db con !! fold_case DBTABLE = Some (Table products_columns rows) ->
  query1 con toSearch w =
    (Ok (con,
         List.map (List.map of_sql)
           (List.filter
              (fun r => sql_like (cell r 1)
                                 (SText ("%" +:+ toSearch +:+ "%")))
              rows)), w).
Proof.
  intros Ht. unfold query1, like_sql, execute.
  run_with ltac:(unfold compile, prepare, find_table; rewrite Ht;
                 reflexivity).
  unfold begin_if_dml, is_dml, run_stmt.
  run_with ltac:(reflexivity).
  unfold step, find_table. rewrite Ht.
  cbn [tbl_cols]. rewrite col_index_description.
  unfold select_rows, is_ddl, bind, ret. cbn [andb tbl_rows].
  rewrite keep_connection. reflexivity.
Qed.

Lemma query2_products con key rows w :
  con_db con !! fold_case DBTABLE = Some (Table products_columns rows) ->
  query2 con key w =
    (Ok (con,
         List.map (List.map of_sql)
           (List.filter (fun r => sql_eq AffText (cell r 0) (SText key))
                        rows)), w).
Proof.
  intros Ht. unfold query2, exact_sql, execute.
  run_with ltac:(unfold compile, prepare, find_table; rewrite Ht;
                 reflexivity).
  unfold begin_if_dml, is_dml, run_stmt.
  run_with ltac:(reflexivity).
  unfold step, find_table. rewrite Ht.
  cbn [tbl_cols]. rewrite col_index_productID.
  unfold select_rows, is_ddl, bind, ret. cbn [andb tbl_rows].
  rewrite keep_connection. reflexivity.
Qed.

(** Printing one fetched record of a well-typed row. *)
Lemma print_rec_well_typed id d q w :
  print_rec [PyStr id; PyStr d; PyInt q] w =
    (Ok tt,
     add_lines w [ "Product ID: " +:+ id; "Description: " +:+ d;
                   "Quantity: " +:+ pretty q ]).
Proof.
  unfold print_rec.
  do 6 run_prim. unfold print.
  unfold add_out, add_lines. cbn [g_plist w_fs w_out w_env fmt_s].
  rewrite <- !app_assoc. reflexivity.
Qed.

Lemma sign_rows_of_plist :
  List.filter (fun r => sql_like (cell r 1) (SText ("%" +:+ "sign" +:+ "%")))
              (List.map stored plist)
  = [ [SText "82578"; SText "Kitchen metal sign"; SInt 2] ].
Proof. vm_compute. reflexivity. Qed.

Lemma rows_22776_of_plist :
  List.filter (fun r => sql_eq AffText (cell r 0) (SText "22776"))
              (List.map stored plist)
  = [ [SText "22776"; SText "Swallows greeting card"; SInt 4] ].
Proof. vm_compute. reflexivity. Qed.

(** The query runner on the table the loader leaves. *)
Lemma run_query_loaded w :
  products_of w = Some loaded_table ->
  run_query w =
    (Ok tt,
     set_fs (add_lines w query_lines) (<[DBFILE := db_of w]> (w_fs w))).
Proof.
  intros Ht. unfold run_query.
  run_prim.
  run_with ltac:(apply query1_products with (rows := List.map stored plist);
                 exact Ht).
  cbn [fst snd]. rewrite sign_rows_of_plist.
  run_prim.
  cbn [List.map of_sql for_each].
  run_with ltac:(eapply bind_ok_eq;
                 [apply print_rec_well_typed | reflexivity]).
  run_with ltac:(apply query2_products with (rows := List.map stored plist);
                 exact Ht).
  cbn [fst snd]. rewrite rows_22776_of_plist.
  run_prim.
  cbn [List.map of_sql for_each].
  run_with ltac:(eapply bind_ok_eq;
                 [apply print_rec_well_typed | reflexivity]).
  unfold close, ret, add_out, add_lines, set_fs, query_lines.
  cbn [g_plist w_fs w_out w_env].
  rewrite <- !app_assoc. reflexivity.
Qed.

(** *** The whole run *)

Lemma products_of_loaded w t :
  products_of (set_fs w (<[DBFILE := <[fold_case DBTABLE := t]> (db_of w)]>
                           (w_fs w))) = Some t.
Proof.
  unfold products_of, db_of, read_db, set_fs. cbn [w_fs].
  rewrite lookup_insert_eq. cbn [default]. apply lookup_insert_eq.
Qed.

Lemma db_of_set_fs w db :
  db_of (set_fs w (<[DBFILE := db]> (w_fs w))) = db.
Proof.
  unfold db_of, read_db, set_fs. cbn [w_fs].
  now rewrite lookup_insert_eq.
Qed.

(** The loader on the sample list, table present. *)
Lemma load_db_sample w t0 :
  g_plist w = plist ->
  products_of w = Some t0 ->
  load_db w =
    (Ok tt,
     set_fs (add_out w "Loading the database with 5 items.")
       (<[DBFILE := <[fold_case DBTABLE := loaded_table]> (db_of w)]>
          (w_fs w))).
Proof.
  intros Hpl Ht.
  rewrite (load_db_present w t0 Ht).
  - rewrite Hpl. reflexivity.
  - rewrite Hpl. apply plist_well_typed.
  - rewrite Hpl. apply plist_keys_distinct.
Qed.

Lemma main_present w t0 :
  g_plist w = plist ->
  products_of w = Some t0 ->
  main w =
    (Ok tt,
     set_fs (add_lines w main_lines)
       (<[DBFILE := <[fold_case DBTABLE := loaded_table]> (db_of w)]>
          (w_fs w))).
Proof.
  intros Hpl Ht. unfold main.
  run_prim.
  run_with ltac:(apply load_db_sample with (t0 := t0);
                 [exact Hpl | exact Ht]).
  run_prim. run_prim.
  rewrite run_query_loaded.
  - unfold set_fs, add_out, add_lines, db_of, read_db, main_lines, query_lines.
    cbn [g_plist w_fs w_out w_env].
    rewrite lookup_insert_eq. cbn [default].
    rewrite !insert_insert_eq, <- !app_assoc. reflexivity.
  - apply (products_of_loaded
             (add_out (add_out (add_out (add_out w _) _) _) _)).
Qed.

Lemma main_missing w :
  products_of w = None ->
  main w =
    (Raise no_such_table,
     set_fs (add_lines w [ "Loading the database...";
                           loading_line (g_plist w) ])
       (<[DBFILE := db_of w]> (w_fs w))).
Proof.
  intros Ht. unfold main.
  run_prim.
  stop_with ltac:(apply load_db_missing; exact Ht).
  unfold set_fs, add_out, add_lines. cbn [g_plist w_fs w_out w_env].
  rewrite <- !app_assoc. reflexivity.
Qed.

(** *** Readers on a table with the loader's columns *)

Lemma lookup_product_products w key rows :
  products_of w = Some (Table products_columns rows) ->
  lookup_product key w =
    (Ok (List.map (List.map of_sql)
           (List.filter (fun r => sql_eq AffText (cell r 0) (SText key))
                        rows)),
     set_fs w (<[DBFILE := db_of w]> (w_fs w))).
Proof.
  intros Ht. unfold lookup_product.
  run_prim.
  run_with ltac:(apply query2_products with (rows := rows); exact Ht).
  reflexivity.
Qed.

Lemma search_description_products w toSearch rows :
  products_of w = Some (Table products_columns rows) ->
  search_description toSearch w =
    (Ok (List.map (List.map of_sql)
           (List.filter
              (fun r => sql_like (cell r 1)
                                 (SText ("%" +:+ toSearch +:+ "%")))
              rows)),
     set_fs w (<[DBFILE := db_of w]> (w_fs w))).
Proof.
  intros Ht. unfold search_description.
  run_prim.
  run_with ltac:(apply query1_products with (rows := rows); exact Ht).
  reflexivity.
Qed.

(** A successful load found the table and left the sample table. *)
Lemma load_db_ok_inv w w' :
  g_plist w = plist ->
  load_db w = (Ok tt, w') ->
  is_Some (products_of w) /\
  w' = set_fs (add_out w "Loading the database with 5 items.")
         (<[DBFILE := <[fold_case DBTABLE := loaded_table]> (db_of w)]>
            (w_fs w)).
Proof.
  intros Hpl Hrun.
  destruct (products_of w) as [t0 |] eqn:Ht.
  - rewrite (load_db_sample w t0 Hpl Ht) in Hrun.
    split; [eauto | congruence].
  - rewrite (load_db_missing w Ht) in Hrun. discriminate.
Qed.

Lemma loaded_world_products w w' :
  g_plist w = plist ->
  load_db w = (Ok tt, w') ->
  g_plist w' = plist /\ products_of w' = Some loaded_table.
Proof.
  intros Hpl Hrun.
  destruct (load_db_ok_inv w w' Hpl Hrun) as [_ ->].
  split; [exact Hpl |].
  apply (products_of_loaded (add_out w _)).
Qed.

Lemma sql_eq_text v key :
  sql_eq AffText v (SText key) = true <-> v = SText key.
Proof.
  unfold sql_eq, apply_affinity. destruct v as [| z | s].
  - split; discriminate.
  - split; discriminate.
  - rewrite String.eqb_eq. split; congruence.
Qed.

(** An exact match on a column that holds each value once selects one
    row at most. *)
Lemma exact_match_at_most_one rows key :
  NoDup (keys_at 0 rows) ->
  (length (List.filter (fun r => sql_eq AffText (cell r 0) (SText key)) rows)
   <= 1)%nat.
Proof.
  induction rows as [| r rows IH]; intros Hnd; [simpl; lia |].
  unfold keys_at in Hnd. cbn [List.map List.filter] in *.
  destruct (sql_eq AffText (cell r 0) (SText key)) eqn:Hr.
  - apply sql_eq_text in Hr. rewrite Hr in Hnd.
    cbn [bool_decide decide_rel negb] in Hnd.
    rewrite bool_decide_eq_false_2 in Hnd by discriminate.
    cbn [negb] in Hnd. apply NoDup_cons in Hnd as [Hnotin _].
    assert (List.filter
              (fun r0 => sql_eq AffText (cell r0 0) (SText key)) rows = [])
      as ->; [| simpl; lia].
    destruct (List.filter _ rows) as [| r1 rest] eqn:Hf; [reflexivity |].
    exfalso. apply Hnotin.
    assert (In r1 (List.filter
              (fun r0 => sql_eq AffText (cell r0 0) (SText key)) rows))
      as Hin by (rewrite Hf; now left).
    apply List.filter_In in Hin as [Hin Hm]. apply sql_eq_text in Hm.
    apply list_elem_of_In, List.filter_In. split.
    + apply in_map_iff. eauto.
    + rewrite bool_decide_eq_false_2 by discriminate. reflexivity.
  - apply IH. unfold keys_at.
    destruct (negb (bool_decide (cell r 0 = SNull))); [| exact Hnd].
    now apply NoDup_cons in Hnd as [_ Hnd].
Qed.

(** *** The loader's contract *)

Lemma loaded_table_rows_distinct : NoDup (tbl_rows loaded_table).
Proof. apply (bool_decide_unpack _). vm_compute. exact I. Qed.

Lemma records_of_loaded_table : records_of loaded_table = plist.
Proof. reflexivity. Qed.

(** C1. Whatever the table held before, a load that completes leaves in
    it exactly the five sample records, in order and without duplicates,
    and leaves the other tables of the file alone; a load completes
    whenever the table is there; a second load right after the first
    completes too and leaves the same table. *)
Theorem load_db_exact (w w' : world) :
  g_plist w = plist ->
  load_db w = (Ok tt, w') ->
  (exists t, products_of w' = Some t
             /\ tbl_cols t = products_columns
             /\ records_of t = plist
             /\ length (tbl_rows t) = 5%nat
             /\ NoDup (tbl_rows t))
  /\ (forall n, n <> fold_case DBTABLE -> db_of w' !! n = db_of w !! n)
  /\ (forall w0, g_plist w0 = plist -> is_Some (products_of w0) ->
                 exists w1, load_db w0 = (Ok tt, w1))
  /\ (exists w'', load_db w' = (Ok tt, w'')
                  /\ products_of w'' = products_of w').
Proof.
  intros Hpl Hrun.
  destruct (loaded_world_products w w' Hpl Hrun) as [Hpl' Ht'].
  destruct (load_db_ok_inv w w' Hpl Hrun) as [_ Hw'].
  repeat split.
  - exists loaded_table. rewrite Ht'.
    repeat split; [apply loaded_table_rows_distinct].
  - intros n Hn. rewrite Hw'.
    rewrite (db_of_set_fs (add_out w _)).
    apply lookup_insert_ne. congruence.
  - intros w0 Hpl0 [t0 Ht0]. eexists.
    apply (load_db_sample w0 t0 Hpl0 Ht0).
  - eexists. split.
    + apply (load_db_sample w' loaded_table Hpl' Ht').
    + rewrite Ht'. apply (products_of_loaded (add_out w' _)).
Qed.

Lemma load_db_exact_witness :
  exists t, products_of loaded_world = Some t /\ records_of t = plist.
Proof.
  destruct (load_db_exact stale_world loaded_world) as [(t & Ht & _ & Hr & _) _];
    [reflexivity | reflexivity |].
  exists t. split; assumption.
Defined.

(** C2. When the table is missing, the DROP TABLE statement, which the
    loader issues without looking first, raises ``no such table''; the
    loader and the whole run end with that error, nothing is written to
    the database, and the run prints nothing after the loader's first
    line. *)
Theorem load_db_table_missing (w : world) :
  products_of w = None ->
  fst (load_db w) = Raise no_such_table
  /\ db_of (snd (load_db w)) = db_of w
  /\ fst (main w) = Raise no_such_table
  /\ db_of (snd (main w)) = db_of w
  /\ w_out (snd (main w)) =
       w_out w ++ [ "Loading the database..."; loading_line (g_plist w) ].
Proof.
  intros Ht.
  rewrite (load_db_missing w Ht), (main_missing w Ht). cbn [fst snd].
  rewrite (db_of_set_fs (add_out w _)), (db_of_set_fs (add_lines w _)).
  repeat split.
Qed.

Lemma load_db_table_missing_witness :
  fst (main fresh_world) = Raise no_such_table
  /\ w_out (snd (main fresh_world)) =
       [ "Loading the database..."; "Loading the database with 5 items." ].
Proof.
  destruct (load_db_table_missing fresh_world) as (_ & _ & Hm & _ & Ho);
    [reflexivity |].
  split; [exact Hm | exact Ho].
Defined.

(** *** Reading back what was loaded *)

Lemma lookup_product_loaded w key :
  products_of w = Some loaded_table ->
  fst (lookup_product key w) =
    Ok (List.map (List.map of_sql)
          (List.filter (fun r => sql_eq AffText (cell r 0) (SText key))
                       (List.map stored plist))).
Proof.
  intros Ht.
  now rewrite (lookup_product_products w key (List.map stored plist) Ht).
Qed.

(** C3. After a load that completes, the exact-match query for the
    product ID of any record of [plist] returns that record and no other:
    the same ID, the same description, the same quantity. *)
Theorem round_trip (w w' : world) (r : list pyval) :
  g_plist w = plist ->
  load_db w = (Ok tt, w') ->
  In r plist ->
  exists id d q,
    r = [PyStr id; PyStr d; PyInt q]
    /\ fst (lookup_product id w') = Ok [ [PyStr id; PyStr d; PyInt q] ].
Proof.
  intros Hpl Hrun Hin.
  destruct (loaded_world_products w w' Hpl Hrun) as [_ Ht'].
  unfold plist in Hin. cbn [In] in Hin.
  repeat (destruct Hin as [<- | Hin];
          [eexists _, _, _; split; [reflexivity |];
           rewrite (lookup_product_loaded w' _ Ht'); vm_compute; reflexivity
          |]).
  contradiction.
Qed.

Lemma round_trip_witness :
  exists id d q,
    [PyStr "23084"; PyStr "Rabbit night light"; PyInt 8]
      = [PyStr id; PyStr d; PyInt q]
    /\ fst (lookup_product id loaded_world) = Ok [ [PyStr id; PyStr d; PyInt q] ].
Proof.
  apply (round_trip stale_world loaded_world).
  - reflexivity.
  - reflexivity.
  - unfold plist. simpl. tauto.
Defined.

(** *** LIKE with the search string between two wildcards *)

Lemma like_plain_char c pat s :
  plain c = true ->
  like (String c pat) s =
    match s with
    | EmptyString => false
    | String d s' =>
        Ascii.eqb (ascii_lower c) (ascii_lower d) && like pat s'
    end.
Proof.
  destruct c as [b0 b1 b2 b3 b4 b5 b6 b7].
  destruct b0, b1, b2, b3, b4, b5, b6, b7;
    intros Hp; try discriminate Hp; reflexivity.
Qed.

Lemma is_cont_lower c : is_cont (ascii_lower c) = is_cont c.
Proof.
  destruct c as [b0 b1 b2 b3 b4 b5 b6 b7].
  destruct b0, b1, b2, b3, b4, b5, b6, b7; reflexivity.
Qed.

Lemma plain_not_cont c : plain c = true -> is_cont c = false.
Proof.
  destruct c as [b0 b1 b2 b3 b4 b5 b6 b7].
  destruct b0, b1, b2, b3, b4, b5, b6, b7;
    intros Hp; try discriminate Hp; reflexivity.
Qed.

Lemma any_suffix_end k s : k EmptyString = true -> any_suffix k s = true.
Proof.
  intros Hk. induction s as [| c s IH]; cbn [any_suffix].
  - cbn [at_char_start andb]. now rewrite Hk.
  - rewrite IH. apply orb_true_r.
Qed.

Lemma like_percent s : like "%" s = true.
Proof. apply (any_suffix_end (like EmptyString)). reflexivity. Qed.

(** A plain search string followed by [%] matches the texts that start
    with it, case apart. *)
Lemma like_plain_prefix p :
  plain_text p = true ->
  forall s, like (p +:+ "%") s = String.prefix (fold_case p) (fold_case s).
Proof.
  induction p as [| c p IH]; intros Hp s.
  - transitivity true; [apply like_percent | now destruct s].
  - cbn [plain_text] in Hp. apply andb_prop in Hp as [Hc Hp].
    change (String c p +:+ "%") with (String c (p +:+ "%")).
    rewrite (like_plain_char c _ s Hc).
    destruct s as [| d s]; [reflexivity |].
    cbn [fold_case String.prefix]. rewrite (IH Hp).
    destruct (ascii_dec (ascii_lower c) (ascii_lower d)) as [He | Hne].
    + rewrite He, Ascii.eqb_refl. reflexivity.
    + apply Ascii.eqb_neq in Hne. rewrite Hne. reflexivity.
Qed.

(** Between two [%], a plain search string matches the texts that
    contain it, case apart. *)
Lemma like_wrapped_plain c p :
  plain_text (String c p) = true ->
  forall s,
    like ("%" +:+ String c p +:+ "%") s
    = contains (fold_case (String c p)) (fold_case s).
Proof.
  intros Hp s.
  change (like ("%" +:+ String c p +:+ "%"))
    with (any_suffix (like (String c p +:+ "%"))).
  induction s as [| d s IH].
  - cbn [any_suffix at_char_start andb orb].
    rewrite (like_plain_prefix _ Hp). reflexivity.
  - cbn [any_suffix]. rewrite IH, (like_plain_prefix _ Hp).
    cbn [fold_case contains]. f_equal.
    destruct (String.prefix _ _) eqn:Hpre; [| apply andb_false_r].
    rewrite andb_true_r. cbn [at_char_start].
    cbn [String.prefix] in Hpre.
    destruct (ascii_dec (ascii_lower c) (ascii_lower d)) as [He | Hne];
      [| discriminate].
    cbn [plain_text] in Hp. apply andb_prop in Hp as [Hc _].
    rewrite <- (is_cont_lower d), <- He, is_cont_lower.
    now rewrite (plain_not_cont c Hc).
Qed.

(** Query 1 selects the descriptions that contain the search string in
    any casing. *)
Lemma like_sign d :
  like ("%" +:+ "sign" +:+ "%") d = contains "sign" (fold_case d).
Proof. apply (like_wrapped_plain "s" "ign"). reflexivity. Qed.

(** On any table with the loader's columns, query 1 for ``sign'' returns
    the rows whose description, read as text, contains it in any
    casing. *)
Lemma search_sign_products w rows :
  products_of w = Some (Table products_columns rows) ->
  fst (search_description "sign" w) =
    Ok (List.map (List.map of_sql)
          (List.filter
             (fun r => match text_of (cell r 1) with
                       | Some d => contains "sign" (fold_case d)
                       | None => false
                       end)
             rows)).
Proof.
  intros Ht. rewrite (search_description_products w "sign" rows Ht).
  cbn [fst]. do 2 f_equal. apply List.filter_ext. intros r.
  unfold sql_like. cbn [text_of].
  destruct (text_of (cell r 1)) as [d |]; [apply like_sign | reflexivity].
Qed.

(** C4. After a load that completes, query 1 with the search string
    ``sign'' returns exactly the records of [plist] whose description
    contains ``sign'', which is the one record 82578, ``Kitchen metal
    sign''; the query runner prints that record for query 1. *)
Theorem substring_query (w w' : world) :
  g_plist w = plist ->
  load_db w = (Ok tt, w') ->
  fst (search_description "sign" w')
    = Ok (List.filter (description_contains "sign") plist)
  /\ List.filter (description_contains "sign") plist
     = [ [PyStr "82578"; PyStr "Kitchen metal sign"; PyInt 2] ]
  /\ fst (run_query w') = Ok tt
  /\ w_out (snd (run_query w')) = w_out w' ++ query_lines.
Proof.
  intros Hpl Hrun.
  destruct (loaded_world_products w w' Hpl Hrun) as [_ Ht'].
  rewrite (search_description_products w' "sign" _ Ht').
  rewrite (run_query_loaded w' Ht'). cbn [fst snd].
  rewrite sign_rows_of_plist.
  repeat split.
Qed.

Lemma substring_query_witness :
  fst (search_description "sign" loaded_world)
    = Ok [ [PyStr "82578"; PyStr "Kitchen metal sign"; PyInt 2] ].
Proof.
  destruct (substring_query stale_world loaded_world) as (H1 & H2 & _);
    [reflexivity | reflexivity |].
  rewrite H1, H2. reflexivity.
Defined.

Lemma loaded_table_keys_distinct : NoDup (keys_at 0 (tbl_rows loaded_table)).
Proof. apply (bool_decide_unpack _). vm_compute. exact I. Qed.

(** A table with the loader's columns whose product IDs are distinct
    answers an exact-match query with one row at most. *)
Lemma lookup_product_at_most_one w rows key :
  products_of w = Some (Table products_columns rows) ->
  NoDup (keys_at 0 rows) ->
  exists recs, fst (lookup_product key w) = Ok recs /\ (length recs <= 1)%nat.
Proof.
  intros Ht Hnd. rewrite (lookup_product_products w key rows Ht).
  eexists. split; [reflexivity |].
  rewrite length_map. now apply exact_match_at_most_one.
Qed.

(** C5. After a load that completes, the exact-match query for 22776
    returns the one row (22776, Swallows greeting card, 4), and the
    exact-match query for any product ID returns one row at most; so does
    it on any table with the loader's columns that respects its PRIMARY
    KEY. *)
Theorem exact_query (w w' : world) :
  g_plist w = plist ->
  load_db w = (Ok tt, w') ->
  fst (lookup_product "22776" w')
    = Ok [ [PyStr "22776"; PyStr "Swallows greeting card"; PyInt 4] ]
  /\ (forall key, exists recs,
        fst (lookup_product key w') = Ok recs /\ (length recs <= 1)%nat)
  /\ (forall w1 rows key,
        products_of w1 = Some (Table products_columns rows) ->
        pk_ok (Table products_columns rows) ->
        exists recs,
          fst (lookup_product key w1) = Ok recs /\ (length recs <= 1)%nat).
Proof.
  intros Hpl Hrun.
  destruct (loaded_world_products w w' Hpl Hrun) as [_ Ht'].
  split; [| split].
  - rewrite (lookup_product_loaded w' _ Ht'). rewrite rows_22776_of_plist.
    reflexivity.
  - intros key.
    apply (lookup_product_at_most_one w' (List.map stored plist) key Ht').
    apply loaded_table_keys_distinct.
  - intros w1 rows key Ht1 Hok.
    apply (lookup_product_at_most_one w1 rows key Ht1).
    now apply (Hok 0%nat (Column "productID" AffText true)).
Qed.

Lemma exact_query_witness :
  fst (lookup_product "22776" loaded_world)
    = Ok [ [PyStr "22776"; PyStr "Swallows greeting card"; PyInt 4] ].
Proof.
  apply (exact_query stale_world loaded_world); reflexivity.
Defined.

(** No row matches a product ID that none of them carries. *)
Lemma exact_match_absent rows key :
  ~ In (SText key) (List.map (fun r => cell r 0) rows) ->
  List.filter (fun r => sql_eq AffText (cell r 0) (SText key)) rows = [].
Proof.
  induction rows as [| r rows IH]; intros Hout; [reflexivity |].
  cbn [List.filter].
  destruct (sql_eq AffText (cell r 0) (SText key)) eqn:Hr.
  - apply sql_eq_text in Hr. exfalso. apply Hout. left. exact Hr.
  - apply IH. intros Hin. apply Hout. right. exact Hin.
Qed.

Lemma stored_ids (pl : list (list pyval)) key :
  Forall well_typed pl ->
  In (SText key) (List.map (fun r => cell r 0) (List.map stored pl)) ->
  In (PyStr key) (product_ids pl).
Proof.
  induction 1 as [| r pl (id & d & q & -> & _) _ IH]; [intros [] |].
  cbn. intros [Hk | Hin]; [left; congruence | right; now apply IH].
Qed.

(** C7. After a load that completes, the exact-match query for a product
    ID that is not in [plist] returns normally with no row, and the loop
    over no rows prints nothing. *)
Theorem absent_id_no_rows (w w' : world) (key : string) :
  g_plist w = plist ->
  load_db w = (Ok tt, w') ->
  ~ In (PyStr key) (product_ids plist) ->
  fst (lookup_product key w') = Ok []
  /\ forall w1, for_each [] print_rec w1 = (Ok tt, w1).
Proof.
  intros Hpl Hrun Hout.
  destruct (loaded_world_products w w' Hpl Hrun) as [_ Ht'].
  split; [| reflexivity].
  rewrite (lookup_product_loaded w' key Ht').
  rewrite exact_match_absent; [reflexivity |].
  intros Hin. apply Hout. apply stored_ids; [apply plist_well_typed | exact Hin].
Qed.

Lemma absent_id_no_rows_witness :
  fst (lookup_product "00000" loaded_world) = Ok [].
Proof.
  apply (absent_id_no_rows stale_world loaded_world "00000").
  - reflexivity.
  - reflexivity.
  - apply (bool_decide_unpack _). vm_compute. exact I.
Defined.

(** *** What a computation leaves alone *)

Section Frame.

Context {X : Type} (obs : world -> X).

Lemma preserves_ret {A} (a : A) : preserves obs (ret a).
Proof. intros w. reflexivity. Qed.

Lemma preserves_raise {A} (e : pyexc) : preserves obs (@raise A e).
Proof. intros w. reflexivity. Qed.

Lemma preserves_bind {A B} (m : M A) (k : A -> M B) :
  preserves obs m -> (forall a, preserves obs (k a)) ->
  preserves obs (bind m k).
Proof.
  intros Hm Hk w. unfold bind. specialize (Hm w).
  destruct (m w) as [[a | e] w1]; cbn [snd] in *.
  - rewrite (Hk a w1). exact Hm.
  - exact Hm.
Qed.

Lemma preserves_for_each {A} (xs : list A) (body : A -> M unit) :
  (forall x, preserves obs (body x)) -> preserves obs (for_each xs body).
Proof.
  intros Hbody. induction xs as [| x xs IH]; cbn [for_each].
  - apply preserves_ret.
  - apply preserves_bind; [apply Hbody | intros _; exact IH].
Qed.

Lemma preserves_get_plist : preserves obs get_plist.
Proof. intros w. reflexivity. Qed.

Lemma preserves_getitem r i : preserves obs (getitem r i).
Proof.
  unfold getitem. destruct (nth_error r i);
    [apply preserves_ret | apply preserves_raise].
Qed.

Lemma preserves_fmt_d v : preserves obs (fmt_d v).
Proof. destruct v; [apply preserves_raise | apply preserves_ret | apply preserves_raise]. Qed.

Lemma preserves_to_sql v : preserves obs (to_sql v).
Proof.
  destruct v as [| z | s]; cbn [to_sql]; [apply preserves_ret | | apply preserves_ret].
  destruct (in_int64 z); [apply preserves_ret | apply preserves_raise].
Qed.

Lemma preserves_bind_values params : preserves obs (bind_values params).
Proof.
  induction params as [| p ps IH]; cbn [bind_values].
  - apply preserves_ret.
  - apply preserves_bind; [apply preserves_to_sql | intros v].
    apply preserves_bind; [exact IH | intros vs; apply preserves_ret].
Qed.

Lemma preserves_bind_params st params : preserves obs (bind_params st params).
Proof.
  unfold bind_params. case_bool_decide;
    [apply preserves_bind_values | apply preserves_raise].
Qed.

Lemma preserves_compile con st : preserves obs (compile con st).
Proof.
  unfold compile. destruct (prepare (con_db con) st);
    [apply preserves_raise | apply preserves_ret].
Qed.

Lemma preserves_close con : preserves obs (close con).
Proof. apply preserves_ret. Qed.

(** Standard output is not part of the observation. *)
Hypothesis obs_add_out : forall w line, obs (add_out w line) = obs w.

Lemma preserves_print line : preserves obs (print line).
Proof. intros w. apply obs_add_out. Qed.

Lemma preserves_print_rec r : preserves obs (print_rec r).
Proof.
  unfold print_rec.
  repeat first
    [ apply preserves_print
    | apply preserves_bind; [| intros ?]
    | apply preserves_getitem
    | apply preserves_fmt_d ].
Qed.

(** A SELECT statement writes nothing. *)
Lemma preserves_run_stmt_read con st params :
  is_ddl st = false -> preserves obs (run_stmt con st params).
Proof.
  intros Hst. unfold run_stmt.
  apply preserves_bind; [apply preserves_bind_params | intros bound].
  destruct (step (con_db con) st bound) as [e | [db' rows]];
    [apply preserves_raise |].
  rewrite Hst. cbn [andb].
  apply preserves_bind; intros; apply preserves_ret.
Qed.

Lemma preserves_execute_read con st params :
  is_ddl st = false -> preserves obs (execute con st params).
Proof.
  intros Hst. unfold execute.
  apply preserves_bind; [apply preserves_compile | intros _].
  now apply preserves_run_stmt_read.
Qed.

(** Opening the file does not change the database in it. *)
Hypothesis obs_connect :
  forall w path,
    obs (set_fs w (<[path := read_db (w_fs w) path]> (w_fs w))) = obs w.

Lemma preserves_connect path : preserves obs (connect path).
Proof. intros w. apply obs_connect. Qed.

Lemma preserves_run_query : preserves obs run_query.
Proof.
  unfold run_query, query1, query2.
  repeat first
    [ apply preserves_print
    | apply preserves_connect
    | apply preserves_close
    | apply preserves_for_each; intros ?; apply preserves_print_rec
    | apply preserves_execute_read; reflexivity
    | apply preserves_bind; [| intros ?] ].
Qed.

End Frame.

Section FrameFiles.

Context {X : Type} (obs : world -> X).

(** The files are not part of the observation. *)
Hypothesis obs_add_out : forall w line, obs (add_out w line) = obs w.
Hypothesis obs_set_fs : forall w fs, obs (set_fs w fs) = obs w.

Lemma preserves_write_file path db : preserves obs (write_file path db).
Proof. intros w. apply obs_set_fs. Qed.

Lemma preserves_run_stmt con st params : preserves obs (run_stmt con st params).
Proof.
  unfold run_stmt.
  apply preserves_bind; [apply preserves_bind_params | intros bound].
  destruct (step (con_db con) st bound) as [e | [db' rows]];
    [apply preserves_raise |].
  apply preserves_bind; [| intros; apply preserves_ret].
  destruct (is_ddl st && negb (con_in_tx con));
    [apply preserves_write_file | apply preserves_ret].
Qed.

Lemma preserves_execute con st params : preserves obs (execute con st params).
Proof.
  unfold execute.
  apply preserves_bind; [apply preserves_compile | intros _].
  apply preserves_run_stmt.
Qed.

Lemma preserves_run_many st seq_of_params :
  forall con, preserves obs (run_many con st seq_of_params).
Proof.
  induction seq_of_params as [| params rest IH]; intros con; cbn [run_many].
  - apply preserves_ret.
  - apply preserves_bind; [apply preserves_run_stmt | intros r; apply IH].
Qed.

Lemma preserves_executemany con st seq_of_params :
  preserves obs (executemany con st seq_of_params).
Proof.
  unfold executemany.
  apply preserves_bind; [apply preserves_compile | intros _].
  destruct (is_dml st); [apply preserves_run_many | apply preserves_raise].
Qed.

Lemma preserves_commit con : preserves obs (commit con).
Proof.
  unfold commit. destruct (con_in_tx con); [| apply preserves_ret].
  apply preserves_bind; [apply preserves_write_file | intros; apply preserves_ret].
Qed.

Lemma preserves_load_db : preserves obs load_db.
Proof.
  unfold load_db.
  repeat first
    [ apply preserves_get_plist
    | apply (preserves_print obs obs_add_out)
    | intros w; apply obs_set_fs
    | apply preserves_close
    | apply preserves_execute
    | apply preserves_executemany
    | apply preserves_commit
    | apply preserves_bind; [| intros ?] ].
Qed.

Lemma preserves_main : preserves obs main.
Proof.
  unfold main.
  repeat first
    [ apply (preserves_print obs obs_add_out)
    | apply preserves_load_db
    | apply (preserves_run_query obs obs_add_out);
      intros w path; apply obs_set_fs
    | apply preserves_bind; [| intros ?] ].
Qed.

End FrameFiles.

(** *** The query runner only reads *)

Lemma read_db_connect (fs : gmap string database) path p :
  read_db (<[path := read_db fs path]> fs) p = read_db fs p.
Proof.
  unfold read_db. destruct (decide (path = p)) as [-> | Hne].
  - now rewrite lookup_insert_eq.
  - now rewrite lookup_insert_ne.
Qed.

(** C8. Whatever the files hold, and whether the query runner returns or
    raises, the database in every file is afterwards what it was before;
    in particular the table [products] has the same rows. *)
Theorem run_query_read_only :
  forall (w : world) (p : string),
    read_db (w_fs (snd (run_query w))) p = read_db (w_fs w) p.
Proof.
  intros w p.
  apply (preserves_run_query (fun w0 => read_db (w_fs w0) p)).
  - reflexivity.
  - intros w0 path. apply read_db_connect.
Qed.

(** *** The sample list stays as written *)

(** C10. Neither the loader nor the query runner nor a whole run changes
    the binding of [plist]: its elements and their order are afterwards
    what they were, so a run that starts from the module's initial state
    ends with the literal list. *)
Theorem plist_unchanged :
  (forall w, g_plist (snd (load_db w)) = g_plist w)
  /\ (forall w, g_plist (snd (run_query w)) = g_plist w)
  /\ (forall w, g_plist (snd (main w)) = g_plist w)
  /\ (forall env fs, g_plist (snd (main (initial_world env fs))) = plist).
Proof.
  assert (forall w, g_plist (snd (main w)) = g_plist w) as Hmain.
  { intros w. apply (preserves_main g_plist); reflexivity. }
  repeat split.
  - intros w. apply (preserves_load_db g_plist); reflexivity.
  - intros w. apply (preserves_run_query g_plist); reflexivity.
  - exact Hmain.
  - intros env fs. apply Hmain.
Qed.

(** *** Two runs from the same store *)

(** C9. A run is determined by the database in [inventory.db]: two runs
    whose files hold the same database there end the same way, print the
    same text and leave the same database, whatever the command line, the
    environment, the standard input and the other files are. *)
Theorem main_deterministic (env1 env2 : process_env)
        (fs1 fs2 : gmap string database) :
  read_db fs1 DBFILE = read_db fs2 DBFILE ->
  fst (main (initial_world env1 fs1)) = fst (main (initial_world env2 fs2))
  /\ w_out (snd (main (initial_world env1 fs1)))
     = w_out (snd (main (initial_world env2 fs2)))
  /\ db_of (snd (main (initial_world env1 fs1)))
     = db_of (snd (main (initial_world env2 fs2))).
Proof.
  intros Hdb.
  set (w1 := initial_world env1 fs1). set (w2 := initial_world env2 fs2).
  assert (db_of w1 = db_of w2) as Hdb' by exact Hdb.
  assert (products_of w1 = products_of w2) as Ht
    by (unfold products_of; now rewrite Hdb').
  destruct (products_of w1) as [t1 |] eqn:Ht1; symmetry in Ht.
  - rewrite (main_present w1 t1 eq_refl Ht1), (main_present w2 t1 eq_refl Ht).
    cbn [fst snd].
    rewrite (db_of_set_fs (add_lines w1 _)), (db_of_set_fs (add_lines w2 _)).
    rewrite Hdb'. repeat split.
  - rewrite (main_missing w1 Ht1), (main_missing w2 Ht).
    cbn [fst snd].
    rewrite (db_of_set_fs (add_lines w1 _)), (db_of_set_fs (add_lines w2 _)).
    rewrite Hdb'. repeat split.
Qed.

Lemma main_deterministic_witness :
  w_out (snd (main (initial_world sample_env {[ DBFILE := stale_db ]})))
  = w_out (snd (main (initial_world other_env crowded_fs))).
Proof.
  destruct (main_deterministic sample_env other_env
              {[ DBFILE := stale_db ]} crowded_fs) as (_ & Hout & _).
  - vm_compute. reflexivity.
  - exact Hout.
Defined.

(** *** The primary key *)

Lemma keys_at_app i rows r :
  keys_at i (rows ++ [r]) =
    keys_at i rows
    ++ (if bool_decide (cell r i = SNull) then [] else [cell r i]).
Proof.
  unfold keys_at. rewrite map_app, List.filter_app. f_equal.
  cbn [List.map List.filter]. now destruct (bool_decide (cell r i = SNull)).
Qed.

Lemma keys_at_in i rows v :
  In v (keys_at i rows) -> In v (List.map (fun r => cell r i) rows).
Proof. unfold keys_at. intros Hin. now apply List.filter_In in Hin. Qed.

Lemma clashes_none rows i v :
  clashes rows i v = false -> v <> SNull ->
  ~ In v (List.map (fun r => cell r i) rows).
Proof.
  intros Hc Hv Hin. rewrite (clashes_taken rows i v Hv Hin) in Hc.
  discriminate.
Qed.

(** A row that passes the check clashes in no PRIMARY KEY column. *)
Lemma pk_violation_from_none cols rows r :
  forall j,
    pk_violation_from j cols rows r = None ->
    forall i c, cols !! i = Some c -> col_pk c = true ->
                clashes rows (j + i) (cell r (j + i)) = false.
Proof.
  induction cols as [| c0 cols IH]; intros j Hnone i c Hi Hpk.
  - discriminate.
  - cbn [pk_violation_from] in Hnone.
    destruct (col_pk c0 && clashes rows j (cell r j)) eqn:Hc0; [discriminate |].
    destruct i as [| i]; cbn in Hi.
    + injection Hi as ->. rewrite Hpk in Hc0. cbn [andb] in Hc0.
      now rewrite Nat.add_0_r.
    + replace (j + S i)%nat with (S j + i)%nat by lia.
      now apply (IH (S j) Hnone i c).
Qed.

Lemma pk_ok_insert t r :
  pk_ok t -> pk_violation t r = None ->
  pk_ok (Table (tbl_cols t) (tbl_rows t ++ [r])).
Proof.
  intros Hok Hnone i c Hi Hpk. cbn [tbl_cols tbl_rows] in *.
  rewrite keys_at_app. apply NoDup_app. split; [now apply (Hok i c) |].
  pose proof (pk_violation_from_none _ _ _ 0%nat Hnone i c Hi Hpk) as Hc.
  cbn [Nat.add] in Hc.
  case_bool_decide as Hnull.
  - split; [intros x _ Hx; inversion Hx | constructor].
  - split; [| apply NoDup_singleton].
    intros x Hx Hx'. apply list_elem_of_singleton in Hx' as ->.
    apply list_elem_of_In, keys_at_in in Hx.
    now apply (clashes_none _ _ _ Hc Hnull).
Qed.

Lemma pk_ok_empty cols : pk_ok (Table cols []).
Proof. intros i c _ _. constructor. Qed.

(** No statement breaks the key: a database whose PRIMARY KEY columns
    hold each value once still does after any statement that succeeds. *)
Lemma step_keeps_keys db st params db' out :
  db_ok db -> step db st params = inr (db', out) -> db_ok db'.
Proof.
  intros Hok Hstep. destruct st as [name | name cols | name cols | name col | name col];
    cbn [step] in Hstep.
  - injection Hstep as <- _. intros n t Hn.
    apply lookup_delete_Some in Hn as [_ Hn]. now apply (Hok n).
  - destruct (db !! fold_case name) eqn:Hl; injection Hstep as <- _;
      [exact Hok |].
    intros n t Hn. apply lookup_insert_Some in Hn as [[_ <-] | [_ Hn]];
      [apply pk_ok_empty | now apply (Hok n)].
  - unfold find_table in Hstep.
    destruct (db !! fold_case name) as [t0 |] eqn:Hl; [| discriminate].
    destruct (pk_violation t0 _) eqn:Hv; [discriminate |].
    injection Hstep as <- _.
    intros n t Hn. apply lookup_insert_Some in Hn as [[_ <-] | [_ Hn]];
      [| now apply (Hok n)].
    apply pk_ok_insert; [now apply (Hok (fold_case name)) | exact Hv].
  - destruct (find_table db name) as [e | t0]; [discriminate |].
    destruct (col_index (tbl_cols t0) col); [| discriminate].
    now injection Hstep as <- _.
  - destruct (find_table db name) as [e | t0]; [discriminate |].
    destruct (col_index (tbl_cols t0) col); [| discriminate].
    now injection Hstep as <- _.
Qed.

Lemma loaded_table_pk_ok : pk_ok loaded_table.
Proof.
  intros i c Hi Hpk. destruct i as [| [| [| i]]]; cbn in Hi.
  - apply loaded_table_keys_distinct.
  - injection Hi as <-. discriminate.
  - injection Hi as <-. discriminate.
  - discriminate.
Qed.

Lemma execute_insert_duplicate con rows id d q w :
  con_db con !! fold_case DBTABLE = Some (Table products_columns rows) ->
  in_int64 q = true ->
  In (SText id) (List.map (fun r => cell r 0) rows) ->
  execute con (insert_sql DBTABLE) [PyStr id; PyStr d; PyInt q] w
  = (Raise unique_failed, w).
Proof.
  intros Ht Hq Hdup. unfold execute.
  run_with ltac:(unfold compile, insert_sql, prepare, find_table;
                 rewrite Ht; reflexivity).
  now rewrite (run_insert_duplicate _ DBTABLE rows id d q w).
Qed.

(** C6. The product IDs of [plist] are pairwise distinct; an INSERT that
    repeats a product ID of the table raises the UNIQUE constraint error
    and changes nothing; every statement that succeeds keeps the values
    of each PRIMARY KEY column distinct (NULL, which SQLite lets such a
    column repeat and the script never stores, apart); and after a load
    that completes the table holds no product ID twice. *)
Theorem product_id_unique :
  NoDup (product_ids plist)
  /\ (forall con rows id d q w,
        con_db con !! fold_case DBTABLE = Some (Table products_columns rows) ->
        in_int64 q = true ->
        In (SText id) (List.map (fun r => cell r 0) rows) ->
        execute con (insert_sql DBTABLE) [PyStr id; PyStr d; PyInt q] w
        = (Raise unique_failed, w))
  /\ (forall db st params db' out,
        db_ok db -> step db st params = inr (db', out) -> db_ok db')
  /\ (forall w w',
        g_plist w = plist -> load_db w = (Ok tt, w') ->
        exists t, products_of w' = Some t
                  /\ pk_ok t
                  /\ NoDup (List.map (fun r => cell r 0) (tbl_rows t))
                  /\ (db_ok (db_of w) -> db_ok (db_of w'))).
Proof.
  split; [apply plist_ids_distinct |].
  split; [apply execute_insert_duplicate |].
  split; [apply step_keeps_keys |].
  intros w w' Hpl Hrun.
  destruct (loaded_world_products w w' Hpl Hrun) as [_ Ht'].
  destruct (load_db_ok_inv w w' Hpl Hrun) as [_ Hw'].
  exists loaded_table. repeat split.
  - exact Ht'.
  - apply loaded_table_pk_ok.
  - apply plist_keys_distinct.
  - intros Hok. rewrite Hw', (db_of_set_fs (add_out w _)).
    intros n t Hn. apply lookup_insert_Some in Hn as [[_ <-] | [_ Hn]];
      [apply loaded_table_pk_ok | now apply (Hok n)].
Qed.

Lemma product_id_unique_witness :
  execute loaded_con (insert_sql DBTABLE)
          [PyStr "22776"; PyStr "Swallows greeting card"; PyInt 4] loaded_world
  = (Raise unique_failed, loaded_world).
Proof.
  destruct product_id_unique as (_ & Hdup & _).
  apply (Hdup loaded_con (List.map stored plist)).
  - reflexivity.
  - reflexivity.
  - vm_compute. tauto.
Defined.

(** ** Beyond the sample list *)

Lemma stored_cells r : stored r = List.map cell_of_py r.
Proof. reflexivity. Qed.

Lemma of_sql_cell_of_py v : of_sql (cell_of_py v) = v.
Proof. now destruct v. Qed.

Lemma fetch_stored r : List.map of_sql (stored r) = r.
Proof.
  rewrite stored_cells, List.map_map.
  rewrite <- (List.map_id r) at 2. apply List.map_ext, of_sql_cell_of_py.
Qed.

Lemma fetch_all_stored pl : List.map (List.map of_sql) (List.map stored pl) = pl.
Proof.
  rewrite List.map_map. rewrite <- (List.map_id pl) at 2.
  apply List.map_ext, fetch_stored.
Qed.

Lemma cell_of_py_inj : Inj (=) (=) cell_of_py.
Proof. intros [| x | s] [| y | t] H; cbn in H; congruence. Qed.

Lemma key_cells_of_ids pl :
  List.map (fun r => cell r 0) (List.map stored pl)
  = List.map cell_of_py (product_ids pl).
Proof.
  unfold product_ids. rewrite !List.map_map. apply List.map_ext. intros r.
  unfold cell. rewrite stored_cells. now destruct r.
Qed.

Lemma key_cells_distinct pl :
  NoDup (product_ids pl) ->
  NoDup (List.map (fun r => cell r 0) (List.map stored pl)).
Proof.
  intros Hnd. rewrite key_cells_of_ids.
  apply (NoDup_fmap_2_strong cell_of_py);
    [intros x y _ _; apply cell_of_py_inj | exact Hnd].
Qed.

Lemma loaded_world_any w t0 :
  products_of w = Some t0 ->
  Forall well_typed (g_plist w) ->
  NoDup (product_ids (g_plist w)) ->
  load_db w =
    (Ok tt,
     set_fs (add_out w (loading_line (g_plist w)))
       (<[DBFILE := <[fold_case DBTABLE :=
                        Table products_columns (List.map stored (g_plist w))]>
                      (db_of w)]> (w_fs w))).
Proof.
  intros Ht Hwt Hnd.
  apply (load_db_present w t0 Ht Hwt). now apply key_cells_distinct.
Qed.

(** X1. With the table there, the loader stores whatever list of
    well-typed records with distinct product IDs the global [plist] holds
    when it is called: it completes, a reader of the table then fetches
    exactly that list, in order, and the loader has printed the one line
    that counts the records. *)
Theorem load_db_stores_list (w : world) (t0 : table) :
  products_of w = Some t0 ->
  Forall well_typed (g_plist w) ->
  NoDup (product_ids (g_plist w)) ->
  fst (load_db w) = Ok tt
  /\ (exists t, products_of (snd (load_db w)) = Some t
                /\ tbl_cols t = products_columns
                /\ records_of t = g_plist w)
  /\ w_out (snd (load_db w)) = w_out w ++ [ loading_line (g_plist w) ].
Proof.
  intros Ht Hwt Hnd. rewrite (loaded_world_any w t0 Ht Hwt Hnd).
  cbn [fst snd]. split; [reflexivity |]. split; [| reflexivity].
  eexists. split; [apply (products_of_loaded (add_out w _)) |].
  split; [reflexivity |]. apply fetch_all_stored.
Qed.

Lemma load_db_stores_list_witness :
  exists t, products_of (snd (load_db other_world)) = Some t
            /\ records_of t = other_list.
Proof.
  destruct (load_db_stores_list other_world
              (Table [ Column "sku" AffText false ] [ [ SText "old" ] ]))
    as (_ & (t & Ht & _ & Hr) & _).
  - reflexivity.
  - repeat (constructor; [eexists _, _, _; split; reflexivity |]).
    constructor.
  - apply (bool_decide_unpack _). vm_compute. exact I.
  - exists t. split; assumption.
Defined.

(** The one row that carries a product ID, when the IDs are distinct. *)
Lemma exact_match_member rows row key :
  NoDup (List.map (fun r => cell r 0) rows) ->
  In row rows ->
  cell row 0 = SText key ->
  List.filter (fun r => sql_eq AffText (cell r 0) (SText key)) rows = [row].
Proof.
  induction rows as [| r rows IH]; intros Hnd Hin Hkey; [destruct Hin |].
  cbn [List.map] in Hnd. apply NoDup_cons in Hnd as [Hout Hnd].
  cbn [List.filter].
  destruct Hin as [-> | Hin].
  - assert (sql_eq AffText (cell row 0) (SText key) = true) as ->
        by now apply sql_eq_text.
    f_equal. apply exact_match_absent. rewrite <- Hkey.
    intros Hin. apply Hout. now apply list_elem_of_In.
  - destruct (sql_eq AffText (cell r 0) (SText key)) eqn:Hr.
    + apply sql_eq_text in Hr. exfalso. apply Hout.
      apply list_elem_of_In, in_map_iff. exists row.
      split; [congruence | exact Hin].
    + now apply IH.
Qed.

(** X2. After a load of any list of well-typed records with distinct
    product IDs, the exact-match query is membership in that list: for
    the ID of a record of the list it returns that record alone, with the
    description and the quantity it was given, and for an ID that no
    record carries it returns no row. *)
Theorem lookup_after_load (w : world) (t0 : table) :
  products_of w = Some t0 ->
  Forall well_typed (g_plist w) ->
  NoDup (product_ids (g_plist w)) ->
  (forall id d q,
      In [PyStr id; PyStr d; PyInt q] (g_plist w) ->
      fst (lookup_product id (snd (load_db w)))
      = Ok [ [PyStr id; PyStr d; PyInt q] ])
  /\ (forall key,
         ~ In (PyStr key) (product_ids (g_plist w)) ->
         fst (lookup_product key (snd (load_db w))) = Ok []).
Proof.
  intros Ht Hwt Hnd. rewrite (loaded_world_any w t0 Ht Hwt Hnd). cbn [snd].
  set (w' := set_fs _ _).
  assert (products_of w'
          = Some (Table products_columns (List.map stored (g_plist w))))
    as Ht' by apply (products_of_loaded (add_out w _)).
  split.
  - intros id d q Hin.
    rewrite (lookup_product_products _ id _ Ht'). cbn [fst].
    rewrite (exact_match_member _ (stored [PyStr id; PyStr d; PyInt q]) id).
    + reflexivity.
    + now apply key_cells_distinct.
    + apply in_map_iff. eauto.
    + reflexivity.
  - intros key Hout.
    rewrite (lookup_product_products _ key _ Ht'). cbn [fst].
    rewrite exact_match_absent; [reflexivity |].
    intros Hin. apply Hout. now apply stored_ids.
Qed.

Lemma lookup_after_load_witness :
  fst (lookup_product "A1" (snd (load_db other_world)))
  = Ok [ [PyStr "A1"; PyStr "Tin SIGN"; PyInt 1] ]
  /\ fst (lookup_product "Z9" (snd (load_db other_world))) = Ok [].
Proof.
  destruct (lookup_after_load other_world
              (Table [ Column "sku" AffText false ] [ [ SText "old" ] ]))
    as [Hin Hout].
  - reflexivity.
  - repeat (constructor; [eexists _, _, _; split; reflexivity |]).
    constructor.
  - apply (bool_decide_unpack _). vm_compute. exact I.
  - split.
    + apply Hin. simpl. tauto.
    + apply Hout. apply (bool_decide_unpack _). vm_compute. exact I.
Defined.

(** ** When the bulk insert fails *)

Lemma run_many_app st l1 l2 :
  forall con w,
    run_many con st (l1 ++ l2) w
    = bind (run_many con st l1) (fun con' => run_many con' st l2) w.
Proof.
  induction l1 as [| p l1 IH]; intros con w; [reflexivity |].
  cbn [app run_many]. unfold bind.
  destruct (run_stmt con st p w) as [[r | e] w1]; [| reflexivity].
  rewrite IH. reflexivity.
Qed.


Lemma executemany_insert_unfold con name rows pl w :
  con_db con !! fold_case name = Some (Table products_columns rows) ->
  executemany con (insert_sql name) pl w
  = run_many (Connection (con_path con) (con_db con) true)
             (insert_sql name) pl w.
Proof.
  intros Ht. unfold executemany.
  run_with ltac:(unfold compile, insert_sql, prepare, find_table;
                 rewrite Ht; reflexivity).
  reflexivity.
Qed.



(** The loader up to the bulk insert, table present: the file already
    holds the new, empty table. *)
Lemma load_db_to_insert w t0 :
  products_of w = Some t0 ->
  load_db w
  = bind (run_many
            (Connection DBFILE
               (<[fold_case DBTABLE := Table products_columns []]> (db_of w))
               true)
            (insert_sql DBTABLE) (g_plist w))
         (fun con => con <- commit con ;; close con)
         (set_fs (add_out w (loading_line (g_plist w)))
            (<[DBFILE := <[fold_case DBTABLE := Table products_columns []]>
                           (db_of w)]> (w_fs w))).
Proof.
  intros Ht. unfold load_db.
  run_prim. run_prim. run_prim.
  run_with ltac:(apply execute_drop_ok with (t := t0);
                 [exact Ht | reflexivity]).
  cbn [fst con_path con_db].
  run_with ltac:(apply execute_create_fresh;
                 [apply lookup_delete_eq | reflexivity]).
  cbn [fst con_path con_db].
  run_prim.
  unfold bind at 1.
  rewrite (executemany_insert_unfold _ DBTABLE [])
    by apply lookup_insert_eq.
  cbn [con_path con_db].
  unfold set_fs, add_out, db_of. cbn [g_plist w_fs w_out w_env].
  rewrite !insert_insert_eq, !insert_delete_eq. reflexivity.
Qed.



Lemma load_db_repeated_run w t0 pre id d q post :
  products_of w = Some t0 ->
  g_plist w = pre ++ [PyStr id; PyStr d; PyInt q] :: post ->
  Forall well_typed pre ->
  NoDup (product_ids pre) ->
  in_int64 q = true ->
  In (PyStr id) (product_ids pre) ->
  load_db w =
    (Raise unique_failed,
     set_fs (add_out w (loading_line (g_plist w)))
       (<[DBFILE := <[fold_case DBTABLE := Table products_columns []]>
                      (db_of w)]> (w_fs w))).
Proof.
  intros Ht Hpl Hwt Hnd Hq Hin.
  rewrite (load_db_to_insert w t0 Ht).
  set (con0 := Connection _ _ _). set (w0 := set_fs _ _).
  apply bind_raise. rewrite Hpl, run_many_app.
  eapply bind_ok_eq.
  - apply (run_many_insert DBTABLE pre con0 [] w0);
      [exact Hwt | reflexivity | apply lookup_insert_eq |].
    now apply key_cells_distinct.
  - cbv beta. cbn [run_many]. apply bind_raise.
    rewrite (run_insert_duplicate _ DBTABLE (List.map stored pre) id d q w0).
    + reflexivity.
    + apply lookup_insert_eq.
    + exact Hq.
    + rewrite key_cells_of_ids.
      change (SText id) with (cell_of_py (PyStr id)). now apply in_map.
Qed.

(** X4. When a record of the global [plist] repeats the product ID of an
    earlier one, the loader raises the UNIQUE constraint error at that
    record, whatever follows it in the list; the records before it are
    not kept either: the file is left with the table empty, and the
    loader has printed its one line. *)
Theorem load_db_repeated_id (w : world) (t0 : table)
        (pre post : list (list pyval)) (id d : string) (q : Z) :
  products_of w = Some t0 ->
  g_plist w = pre ++ [PyStr id; PyStr d; PyInt q] :: post ->
  Forall well_typed pre ->
  NoDup (product_ids pre) ->
  in_int64 q = true ->
  In (PyStr id) (product_ids pre) ->
  fst (load_db w) = Raise unique_failed
  /\ products_of (snd (load_db w)) = Some (Table products_columns [])
  /\ w_out (snd (load_db w)) = w_out w ++ [ loading_line (g_plist w) ].
Proof.
  intros Ht Hpl Hwt Hnd Hq Hin.
  rewrite (load_db_repeated_run w t0 pre id d q post Ht Hpl Hwt Hnd Hq Hin).
  cbn [fst snd]. split; [reflexivity |]. split; [| reflexivity].
  apply (products_of_loaded (add_out w _)).
Qed.

Lemma load_db_repeated_id_witness :
  fst (load_db repeating_world) = Raise unique_failed.
Proof.
  apply (load_db_repeated_id repeating_world
           (Table [ Column "sku" AffText false ] [ [ SText "old" ] ])
           [ [ PyStr "A1"; PyStr "Tin sign"; PyInt 1 ];
             [ PyStr "B2"; PyStr "Mug"; PyInt 7 ] ]
           [] "A1" "Tin sign, large" 3).
  - reflexivity.
  - reflexivity.
  - repeat (constructor; [eexists _, _, _; split; reflexivity |]).
    constructor.
  - apply (bool_decide_unpack _). vm_compute. exact I.
  - reflexivity.
  - simpl. tauto.
Defined.

(** ** What a run can reach *)

Lemma inv_res_ret {A} (I : world -> Prop) (R : A -> Prop) (a : A) :
  R a -> inv_res I R (ret a).
Proof. intros Ha w HI. split; [exact HI |]. intros a' [= <-]. exact Ha. Qed.

Lemma inv_res_raise {A} (I : world -> Prop) (R : A -> Prop) (e : pyexc) :
  inv_res I R (@raise A e).
Proof. intros w HI. split; [exact HI |]. intros a' [=]. Qed.

Lemma inv_res_bind {A B} (I : world -> Prop) (R : A -> Prop) (R' : B -> Prop)
      (m : M A) (k : A -> M B) :
  inv_res I R m -> (forall a, R a -> inv_res I R' (k a)) ->
  inv_res I R' (bind m k).
Proof.
  intros Hm Hk w HI. destruct (Hm w HI) as [HI1 HR]. unfold bind.
  destruct (m w) as [[a | e] w1]; cbn [fst snd] in *.
  - apply Hk; [now apply HR | exact HI1].
  - split; [exact HI1 |]. intros b [=].
Qed.

Lemma inv_res_for_each {A} (I : world -> Prop) (xs : list A)
      (body : A -> M unit) :
  (forall x, inv_res I (fun _ => True) (body x)) ->
  inv_res I (fun _ => True) (for_each xs body).
Proof.
  intros Hbody. induction xs as [| x xs IH]; cbn [for_each].
  - now apply inv_res_ret.
  - apply (inv_res_bind I (fun _ => True)); [apply Hbody | intros _ _; exact IH].
Qed.

Section Confined.

Variable fs0 : gmap string database.
Variable G : database -> Prop.

(** The statements on [DBTABLE] keep [G]. *)
Hypothesis G_step :
  forall db st params db' out,
    stmt_table st = DBTABLE -> G db ->
    step db st params = inr (db', out) -> G db'.

(** What leaves the files alone keeps the world confined. *)
Lemma confined_frame {A} (m : M A) :
  preserves w_fs m -> inv_res (confined fs0 G) (fun _ => True) m.
Proof.
  intros Hm w [Hfs HG]. split; [| trivial].
  unfold confined, db_of. rewrite (Hm w). now split.
Qed.

Lemma confined_print line :
  inv_res (confined fs0 G) (fun _ => True) (print line).
Proof. apply confined_frame. now apply preserves_print. Qed.

Lemma confined_connect :
  inv_res (confined fs0 G) (con_confined G) (connect DBFILE).
Proof.
  intros w [Hfs HG]. cbn [connect fst snd]. split.
  - split.
    + intros p Hp. unfold set_fs. cbn [w_fs].
      rewrite read_db_connect. now apply Hfs.
    + unfold db_of, set_fs. cbn [w_fs]. now rewrite read_db_connect.
  - intros con [= <-]. now split.
Qed.

Lemma confined_write db :
  G db -> inv_res (confined fs0 G) (fun _ => True) (write_file DBFILE db).
Proof.
  intros Hdb w [Hfs HG]. cbn [write_file fst snd]. split; [| trivial].
  split.
  - intros p Hp. unfold set_fs, read_db. cbn [w_fs].
    rewrite lookup_insert_ne by congruence. now apply Hfs.
  - now rewrite db_of_set_fs.
Qed.

Lemma confined_run_stmt con st params :
  con_confined G con -> stmt_table st = DBTABLE ->
  inv_res (confined fs0 G) (fun r => con_confined G (fst r))
          (run_stmt con st params).
Proof.
  intros [Hpath Hcon] Hst. unfold run_stmt.
  apply (inv_res_bind _ (fun _ => True));
    [apply confined_frame, preserves_bind_params | intros bound _].
  destruct (step (con_db con) st bound) as [e | [db' rows]] eqn:Hstep;
    [apply inv_res_raise |].
  assert (G db') as Hdb' by exact (G_step _ _ _ _ _ Hst Hcon Hstep).
  apply (inv_res_bind _ (fun _ => True)).
  - destruct (is_ddl st && negb (con_in_tx con)).
    + rewrite Hpath. now apply confined_write.
    + now apply inv_res_ret.
  - intros _ _. apply inv_res_ret. now split.
Qed.

Lemma confined_execute con st params :
  con_confined G con -> stmt_table st = DBTABLE ->
  inv_res (confined fs0 G) (fun r => con_confined G (fst r))
          (execute con st params).
Proof.
  intros Hcon Hst. unfold execute.
  apply (inv_res_bind _ (fun _ => True));
    [apply confined_frame, preserves_compile | intros _ _].
  apply confined_run_stmt; [| exact Hst].
  unfold begin_if_dml. now destruct (is_dml st), Hcon.
Qed.

Lemma confined_run_many st seq_of_params :
  stmt_table st = DBTABLE ->
  forall con, con_confined G con ->
              inv_res (confined fs0 G) (con_confined G)
                      (run_many con st seq_of_params).
Proof.
  intros Hst. induction seq_of_params as [| p rest IH]; intros con Hcon;
    cbn [run_many].
  - now apply inv_res_ret.
  - apply (inv_res_bind _ (fun r => con_confined G (fst r)));
      [now apply confined_run_stmt | intros r Hr; now apply IH].
Qed.

Lemma confined_executemany con st seq_of_params :
  con_confined G con -> stmt_table st = DBTABLE ->
  inv_res (confined fs0 G) (con_confined G)
          (executemany con st seq_of_params).
Proof.
  intros Hcon Hst. unfold executemany.
  apply (inv_res_bind _ (fun _ => True));
    [apply confined_frame, preserves_compile | intros _ _].
  destruct (is_dml st) eqn:Hdml; [| apply inv_res_raise].
  apply confined_run_many; [exact Hst |].
  unfold begin_if_dml. rewrite Hdml. now destruct Hcon.
Qed.

Lemma confined_commit con :
  con_confined G con ->
  inv_res (confined fs0 G) (con_confined G) (commit con).
Proof.
  intros [Hpath Hcon]. unfold commit.
  destruct (con_in_tx con); [| now apply inv_res_ret].
  apply (inv_res_bind _ (fun _ => True)).
  - rewrite Hpath. now apply confined_write.
  - intros _ _. apply inv_res_ret. now split.
Qed.

Lemma confined_load_db : inv_res (confined fs0 G) (fun _ => True) load_db.
Proof.
  unfold load_db.
  apply (inv_res_bind _ (fun _ => True));
    [apply confined_frame, preserves_get_plist | intros pl _].
  apply (inv_res_bind _ (fun _ => True)); [apply confined_print | intros _ _].
  apply (inv_res_bind _ (con_confined G)); [apply confined_connect |].
  intros con Hcon.
  apply (inv_res_bind _ (fun r => con_confined G (fst r)));
    [now apply confined_execute |].
  intros r Hr.
  apply (inv_res_bind _ (fun r => con_confined G (fst r)));
    [now apply confined_execute |].
  intros r' Hr'.
  apply (inv_res_bind _ (fun _ => True));
    [apply confined_frame, preserves_get_plist | intros pl' _].
  apply (inv_res_bind _ (con_confined G));
    [now apply confined_executemany |].
  intros con1 Hcon1.
  apply (inv_res_bind _ (con_confined G)); [now apply confined_commit |].
  intros con2 _. now apply inv_res_ret.
Qed.

Lemma confined_print_rec r :
  inv_res (confined fs0 G) (fun _ => True) (print_rec r).
Proof. apply confined_frame. now apply preserves_print_rec. Qed.

Lemma confined_run_query : inv_res (confined fs0 G) (fun _ => True) run_query.
Proof.
  unfold run_query, query1, query2.
  apply (inv_res_bind _ (con_confined G)); [apply confined_connect |].
  intros con Hcon.
  apply (inv_res_bind _ (fun r => con_confined G (fst r)));
    [now apply confined_execute |].
  intros r Hr.
  apply (inv_res_bind _ (fun _ => True)); [apply confined_print | intros _ _].
  apply (inv_res_bind _ (fun _ => True));
    [apply inv_res_for_each; intros x; apply confined_print_rec | intros _ _].
  apply (inv_res_bind _ (fun r => con_confined G (fst r)));
    [now apply confined_execute |].
  intros r' Hr'.
  apply (inv_res_bind _ (fun _ => True)); [apply confined_print | intros _ _].
  apply (inv_res_bind _ (fun _ => True));
    [apply inv_res_for_each; intros x; apply confined_print_rec | intros _ _].
  now apply inv_res_ret.
Qed.

Lemma confined_main : inv_res (confined fs0 G) (fun _ => True) main.
Proof.
  unfold main.
  apply (inv_res_bind _ (fun _ => True)); [apply confined_print | intros _ _].
  apply (inv_res_bind _ (fun _ => True)); [apply confined_load_db | intros _ _].
  apply (inv_res_bind _ (fun _ => True)); [apply confined_print | intros _ _].
  apply (inv_res_bind _ (fun _ => True)); [apply confined_print | intros _ _].
  apply confined_run_query.
Qed.

End Confined.

Lemma step_same_but_products db0 db st params db' out :
  stmt_table st = DBTABLE ->
  same_but_products db0 db ->
  step db st params = inr (db', out) ->
  same_but_products db0 db'.
Proof.
  intros Hst Hsame Hstep n Hn. rewrite <- (Hsame n Hn).
  destruct st as [name | name cols | name cols | name col | name col];
    cbn [stmt_table] in Hst; subst name; cbn [step] in Hstep.
  - injection Hstep as <- _. now apply lookup_delete_ne.
  - destruct (db !! fold_case DBTABLE); injection Hstep as <- _;
      [reflexivity | now apply lookup_insert_ne].
  - destruct (find_table db DBTABLE) as [e | t]; [discriminate |].
    destruct (pk_violation t _); [discriminate |].
    injection Hstep as <- _. now apply lookup_insert_ne.
  - destruct (find_table db DBTABLE) as [e | t]; [discriminate |].
    destruct (col_index (tbl_cols t) col); [| discriminate].
    now injection Hstep as <- _.
  - destruct (find_table db DBTABLE) as [e | t]; [discriminate |].
    destruct (col_index (tbl_cols t) col); [| discriminate].
    now injection Hstep as <- _.
Qed.

(** X5. Whatever the global [plist] and the files hold, and whether they
    return or raise, the loader and a whole run write to nothing but the
    table [products] of [inventory.db]: the database of every other file
    and every other table of [inventory.db] are afterwards what they
    were. *)
Theorem writes_only_products :
  forall w : world,
    (forall p, p <> DBFILE ->
               read_db (w_fs (snd (load_db w))) p = read_db (w_fs w) p)
    /\ (forall n, n <> fold_case DBTABLE ->
                  db_of (snd (load_db w)) !! n = db_of w !! n)
    /\ (forall p, p <> DBFILE ->
                  read_db (w_fs (snd (main w))) p = read_db (w_fs w) p)
    /\ (forall n, n <> fold_case DBTABLE ->
                  db_of (snd (main w)) !! n = db_of w !! n).
Proof.
  intros w.
  assert (confined (w_fs w) (same_but_products (db_of w)) w) as Hw
    by (split; [reflexivity | intros n _; reflexivity]).
  destruct (confined_load_db (w_fs w) (same_but_products (db_of w))
              (step_same_but_products (db_of w)) w Hw) as [[Hl1 Hl2] _].
  destruct (confined_main (w_fs w) (same_but_products (db_of w))
              (step_same_but_products (db_of w)) w Hw) as [[Hm1 Hm2] _].
  repeat split; assumption.
Qed.

Lemma writes_only_products_witness :
  read_db (w_fs (snd (main (initial_world other_env crowded_fs)))) "notes.db"
  = stale_db.
Proof.
  destruct (writes_only_products (initial_world other_env crowded_fs))
    as (_ & _ & Hfiles & _).
  rewrite Hfiles; [reflexivity | discriminate].
Defined.



(** ** The query runner on other tables *)

Lemma query1_uncompiled con toSearch e w :
  prepare (con_db con) (like_sql DBTABLE) = Some e ->
  query1 con toSearch w = (Raise (exc_of e), w).
Proof.
  intros He. unfold query1, execute. apply bind_raise.
  unfold compile. now rewrite He.
Qed.

Lemma run_query_uncompiled w e :
  prepare (db_of w) (like_sql DBTABLE) = Some e ->
  run_query w = (Raise (exc_of e), set_fs w (<[DBFILE := db_of w]> (w_fs w))).
Proof.
  intros He. unfold run_query. run_prim.
  apply bind_raise. now apply query1_uncompiled.
Qed.

(** X7. When the table is missing, or has no column [description], the
    query runner raises at its first statement (``no such table:
    products'', ``no such column: description''): it prints nothing, not
    even the heading of query 1, and query 2 is not run. *)
Theorem run_query_unreadable (w : world) :
  (products_of w = None ->
   fst (run_query w) = Raise no_such_table
   /\ w_out (snd (run_query w)) = w_out w)
  /\ (forall t,
         products_of w = Some t ->
         col_index (tbl_cols t) "description" = None ->
         fst (run_query w)
         = Raise (OperationalError "no such column: description")
         /\ w_out (snd (run_query w)) = w_out w).
Proof.
  split.
  - intros Ht.
    rewrite (run_query_uncompiled w (NoSuchTable DBTABLE)); [now split |].
    unfold like_sql, prepare, find_table.
    unfold products_of in Ht. now rewrite Ht.
  - intros t Ht Hcol.
    rewrite (run_query_uncompiled w (NoSuchColumn "description"));
      [now split |].
    unfold like_sql, prepare, find_table.
    unfold products_of in Ht. now rewrite Ht, Hcol.
Qed.

Lemma run_query_unreadable_witness :
  (fst (run_query fresh_world) = Raise no_such_table
   /\ w_out (snd (run_query fresh_world)) = [])
  /\ (fst (run_query stale_world)
      = Raise (OperationalError "no such column: description")
      /\ w_out (snd (run_query stale_world)) = []).
Proof.
  split.
  - apply (run_query_unreadable fresh_world). reflexivity.
  - apply (run_query_unreadable stale_world) with
      (t := Table [ Column "sku" AffText false ] [ [ SText "old" ] ]);
      reflexivity.
Defined.
















(** ** Running the script again *)

Lemma products_of_set_fs w db :
  products_of (set_fs w (<[DBFILE := db]> (w_fs w))) = db !! fold_case DBTABLE.
Proof. unfold products_of. now rewrite db_of_set_fs. Qed.

(** X10. The script never creates the table it needs: started on a file
    without the table [products] (a new file, for one), a run raises ``no
    such table'' and leaves the file without it, so the next run fails in
    the same way, and so does every run after it. *)
Theorem main_never_creates_table (w : world) :
  products_of w = None ->
  forall n,
    products_of (rerun n w) = None
    /\ fst (main (rerun n w)) = Raise no_such_table.
Proof.
  intros Ht n.
  assert (products_of (rerun n w) = None) as Hn.
  { induction n as [| n IH]; [exact Ht |].
    cbn [rerun]. rewrite (main_missing _ IH). cbn [snd].
    rewrite (products_of_set_fs (add_lines (rerun n w) _)). exact IH. }
  split; [exact Hn |]. now rewrite (main_missing _ Hn).
Qed.

Lemma main_never_creates_table_witness :
  products_of (rerun 3 fresh_world) = None
  /\ fst (main (rerun 3 fresh_world)) = Raise no_such_table.
Proof.
  apply (main_never_creates_table fresh_world). reflexivity.
Defined.

(** X11. Once the table exists, the script with its sample list reaches
    a steady state: every run returns normally, prints the same twelve
    lines after what was printed before, and leaves the same five-row
    table, however many runs came before. *)
Theorem main_steady_state (w : world) :
  g_plist w = plist ->
  is_Some (products_of w) ->
  forall n,
    fst (main (rerun n w)) = Ok tt
    /\ w_out (rerun (S n) w) = w_out (rerun n w) ++ main_lines
    /\ products_of (rerun (S n) w) = Some loaded_table.
Proof.
  intros Hpl Ht n.
  assert (g_plist (rerun n w) = plist /\ is_Some (products_of (rerun n w)))
    as [Hpln [tn Htn]].
  { induction n as [| n [IHp [tn IHt]]]; [now split |].
    cbn [rerun]. rewrite (main_present _ tn IHp IHt). cbn [snd].
    split; [exact IHp |].
    rewrite (products_of_set_fs (add_lines (rerun n w) _)).
    rewrite lookup_insert_eq. eauto. }
  cbn [rerun]. rewrite (main_present _ tn Hpln Htn). cbn [fst snd].
  split; [reflexivity |]. split; [reflexivity |].
  rewrite (products_of_set_fs (add_lines (rerun n w) _)).
  apply lookup_insert_eq.
Qed.

Lemma main_steady_state_witness :
  fst (main (rerun 2 stale_world)) = Ok tt
  /\ w_out (rerun 3 stale_world) = w_out (rerun 2 stale_world) ++ main_lines
  /\ products_of (rerun 3 stale_world) = Some loaded_table.
Proof.
  apply (main_steady_state stale_world); [reflexivity |].
  eexists. reflexivity.
Defined.

(** ** Query 1 for other search strings *)



(** ** Records the statement cannot take *)

(** The loader stops at the first record whose parameters cannot be
    bound, after well-typed records with distinct IDs. *)
Lemma load_db_stops_at_binding w t0 pre r post e :
  products_of w = Some t0 ->
  g_plist w = pre ++ r :: post ->
  Forall well_typed pre ->
  NoDup (product_ids pre) ->
  (forall w', bind_params (insert_sql DBTABLE) r w' = (Raise e, w')) ->
  load_db w =
    (Raise e,
     set_fs (add_out w (loading_line (g_plist w)))
       (<[DBFILE := <[fold_case DBTABLE := Table products_columns []]>
                      (db_of w)]> (w_fs w))).
Proof.
  intros Ht Hpl Hwt Hnd Hbind.
  rewrite (load_db_to_insert w t0 Ht).
  set (con0 := Connection _ _ _). set (w0 := set_fs _ _).
  apply bind_raise. rewrite Hpl, run_many_app.
  eapply bind_ok_eq.
  - apply (run_many_insert DBTABLE pre con0 [] w0);
      [exact Hwt | reflexivity | apply lookup_insert_eq |].
    now apply key_cells_distinct.
  - cbv beta. cbn [run_many]. apply bind_raise.
    unfold run_stmt. apply bind_raise. apply Hbind.
Qed.

(** X13. A record of the global [plist] that does not have exactly three
    fields stops the loader with ProgrammingError (the statement has
    three placeholders); the well-typed records before it are not kept:
    the file is left with the table empty. *)
Theorem load_db_wrong_arity (w : world) (t0 : table)
        (pre post : list (list pyval)) (r : list pyval) :
  products_of w = Some t0 ->
  g_plist w = pre ++ r :: post ->
  Forall well_typed pre ->
  NoDup (product_ids pre) ->
  length r <> 3%nat ->
  (exists msg, fst (load_db w) = Raise (ProgrammingError msg))
  /\ products_of (snd (load_db w)) = Some (Table products_columns []).
Proof.
  intros Ht Hpl Hwt Hnd Hlen.
  erewrite (load_db_stops_at_binding w t0 pre r post _ Ht Hpl Hwt Hnd).
  - cbn [fst snd]. split; [eauto |].
    apply (products_of_loaded (add_out w _)).
  - intros w'. unfold bind_params, insert_sql, placeholders.
    cbn [length]. rewrite bool_decide_eq_false_2 by exact Hlen. reflexivity.
Qed.

Lemma load_db_wrong_arity_witness :
  exists msg,
    fst (load_db (World [ [ PyStr "A1"; PyStr "Tin sign"; PyInt 1 ];
                          [ PyStr "B2"; PyStr "Mug" ] ]
                        {[ DBFILE := stale_db ]} [] sample_env))
    = Raise (ProgrammingError msg).
Proof.
  apply (load_db_wrong_arity
           (World [ [ PyStr "A1"; PyStr "Tin sign"; PyInt 1 ];
                    [ PyStr "B2"; PyStr "Mug" ] ]
                  {[ DBFILE := stale_db ]} [] sample_env)
           (Table [ Column "sku" AffText false ] [ [ SText "old" ] ])
           [ [ PyStr "A1"; PyStr "Tin sign"; PyInt 1 ] ] []
           [ PyStr "B2"; PyStr "Mug" ]).
  - reflexivity.
  - reflexivity.
  - repeat (constructor; [eexists _, _, _; split; reflexivity |]).
    constructor.
  - apply (bool_decide_unpack _). vm_compute. exact I.
  - simpl. lia.
Defined.

(** X14. A record whose quantity does not fit a signed 64-bit integer
    stops the loader with OverflowError; the well-typed records before it
    are not kept: the file is left with the table empty. *)
Theorem load_db_quantity_overflow (w : world) (t0 : table)
        (pre post : list (list pyval)) (id d : string) (q : Z) :
  products_of w = Some t0 ->
  g_plist w = pre ++ [PyStr id; PyStr d; PyInt q] :: post ->
  Forall well_typed pre ->
  NoDup (product_ids pre) ->
  in_int64 q = false ->
  (exists msg, fst (load_db w) = Raise (OverflowError msg))
  /\ products_of (snd (load_db w)) = Some (Table products_columns []).
Proof.
  intros Ht Hpl Hwt Hnd Hq.
  erewrite (load_db_stops_at_binding w t0 pre _ post _ Ht Hpl Hwt Hnd).
  - cbn [fst snd]. split; [eauto |].
    apply (products_of_loaded (add_out w _)).
  - intros w'. unfold bind_params, insert_sql, placeholders.
    rewrite bool_decide_eq_true_2 by reflexivity.
    unfold bind_values, to_sql, bind, ret, raise. rewrite Hq. reflexivity.
Qed.

Lemma load_db_quantity_overflow_witness :
  exists msg,
    fst (load_db (World [ [ PyStr "A1"; PyStr "Tin sign"; PyInt (2 ^ 63) ] ]
                        {[ DBFILE := stale_db ]} [] sample_env))
    = Raise (OverflowError msg).
Proof.
  apply (load_db_quantity_overflow
           (World [ [ PyStr "A1"; PyStr "Tin sign"; PyInt (2 ^ 63) ] ]
                  {[ DBFILE := stale_db ]} [] sample_env)
           (Table [ Column "sku" AffText false ] [ [ SText "old" ] ])
           [] [] "A1" "Tin sign" (2 ^ 63)).
  - reflexivity.
  - reflexivity.
  - constructor.
  - constructor.
  - reflexivity.
Defined.

(** ** What the loader prints *)

Lemma load_db_after_print w :
  load_db w
  = (con <- connect DBFILE ;;
     r <- execute con (drop_sql DBTABLE) [] ;;
     r <- execute (fst r) (create_sql DBTABLE) [] ;;
     pl <- get_plist ;;
     con <- executemany (fst r) (insert_sql DBTABLE) pl ;;
     con <- commit con ;;
     close con)
      (add_out w (loading_line (g_plist w))).
Proof. reflexivity. Qed.

(** X15. Whatever the global [plist] and the files hold, and whether it
    returns or raises, the loader prints exactly one line, the one that
    counts the records of the list; no error and no statement adds
    anything to standard output. *)
Theorem load_db_prints_one_line :
  forall w : world,
    w_out (snd (load_db w)) = w_out w ++ [ loading_line (g_plist w) ].
Proof.
  intros w. rewrite load_db_after_print.
  change (w_out w ++ [loading_line (g_plist w)])
    with (w_out (add_out w (loading_line (g_plist w)))).
  generalize (add_out w (loading_line (g_plist w))). intros w1.
  revert w1.
  change (preserves w_out
            (con <- connect DBFILE ;;
             r <- execute con (drop_sql DBTABLE) [] ;;
             r <- execute (fst r) (create_sql DBTABLE) [] ;;
             pl <- get_plist ;;
             con <- executemany (fst r) (insert_sql DBTABLE) pl ;;
             con <- commit con ;;
             close con)).
  repeat first
    [ apply preserves_get_plist
    | apply preserves_close
    | apply preserves_connect; reflexivity
    | apply preserves_execute; reflexivity
    | apply preserves_executemany; reflexivity
    | apply preserves_commit; reflexivity
    | apply preserves_bind; [| intros ?] ].
Qed.
